(** * Lightsail instance resource: a shallow embedding of
      internal/service/lightsail/instance.go

    The handlers of the resource (create, read, update, delete) are embedded
    as functions in a small state-and-panic monad.  The state holds the
    remote control plane (an abstract [World] that the vendor API reads and
    writes), the resource data [d] that Go passes by pointer, the lines
    written with [log.Printf] and a ghost trace of the outgoing calls.

    The schema of the resource carries the validation of [name], which is
    embedded down to the regular expressions and the UTF-8 decoding that
    Go's matcher performs, and the diff suppression of [key_pair_name].

    The functions that the handlers call and that the sources do not hold
    (the operation wait, the tag update, the tag filters) are the fields of
    the class [Externals]; the tag functions and the operation wait that
    the specification describes are modelled from it. *)

From Stdlib Require Import ZArith NArith Ascii String List Lia.
From stdpp Require Import gmap strings list fin_maps pretty.

Open Scope string_scope.
Open Scope list_scope.

(** ** Go values *)

(** Go's [error] interface, with the dynamic types this file meets:
    an [awserr.Error] (with its [Code()] and its rendered [Error()] text),
    the value of [fmt.Errorf] without [%w], and the value of [fmt.Errorf]
    with [%w], which keeps the wrapped error. *)
Inductive error : Type :=
  | AwsError (code : string) (text : string)
  | ErrorString (text : string)
  | WrapError (text : string) (inner : error).

(** [err.Error()] *)
Definition Error (e : error) : string :=
  match e with
  | AwsError _ text => text
  | ErrorString text => text
  | WrapError text _ => text
  end.

(** [fmt.Errorf(format, ...)] with [%s] verbs only: the text is given already
    formatted. *)
Definition Errorf (text : string) : error := ErrorString text.

(** [fmt.Errorf("...: %w", err)] *)
Definition Errorf_w (prefix : string) (err : error) : error :=
  WrapError (prefix ++ Error err) err.

(** [err.(awserr.Error)]: the type assertion succeeds on an [awserr.Error]
    only; it does not look through a wrapping error. *)
Definition as_awserr (e : error) : option string :=
  match e with
  | AwsError code _ => Some code
  | _ => None
  end.

(** A [float64] is only copied by this file: it is kept as its IEEE-754 bit
    pattern. *)
Definition float64 : Type := Z.

(** What [d.Get] returns and [d.Set] receives (an [interface{}]).  [VNil] is a
    nil pointer handed to [d.Set]. *)
Inductive value : Type :=
  | VNil
  | VString (s : string)
  | VInt (n : Z)
  | VFloat (f : float64)
  | VBool (b : bool)
  | VList (l : list string)
  | VMap (m : gmap string string).

(** ** Regular expressions and validators

    [validation.All], [validation.StringLenBetween] and
    [validation.StringMatch] are the SDK's; a regular expression is Go's
    [regexp], which reads its input rune by rune. *)

(** The bytes of a Go string. *)
Fixpoint bytes (s : string) : list N :=
  match s with
  | EmptyString => []
  | String a s' => N_of_ascii a :: bytes s'
  end.

(** [len(s)] *)
Definition len (s : string) : Z := Z.of_nat (String.length s).

Definition RuneError : N := 0xFFFD.

Definition between (lo hi b : N) : bool := (lo <=? b)%N && (b <=? hi)%N.

(** A continuation byte, [locb <= b <= hicb]. *)
Definition is_cont (b : N) : bool := between 0x80 0xBF b.

Definition cont_bits (b : N) : N := N.land b 0x3F.

(** [utf8.DecodeRuneInString]: the first rune of the bytes and its width; an
    ill-formed or truncated sequence is [RuneError] of width 1. *)
Definition DecodeRune (p : list N) : N * nat :=
  match p with
  | [] => (RuneError, 0)
  | s0 :: p1 =>
      if (s0 <? 0x80)%N then (s0, 1)
      else if between 0xC2 0xDF s0 then
        match p1 with
        | s1 :: _ =>
            if is_cont s1
            then (N.lor (N.shiftl (N.land s0 0x1F) 6) (cont_bits s1), 2)
            else (RuneError, 1)
        | _ => (RuneError, 1)
        end
      else if between 0xE0 0xEF s0 then
        let lo := if (s0 =? 0xE0)%N then 0xA0%N else 0x80%N in
        let hi := if (s0 =? 0xED)%N then 0x9F%N else 0xBF%N in
        match p1 with
        | s1 :: s2 :: _ =>
            if between lo hi s1 then
              if is_cont s2
              then (N.lor (N.shiftl (N.land s0 0x0F) 12)
                      (N.lor (N.shiftl (cont_bits s1) 6) (cont_bits s2)), 3)
              else (RuneError, 1)
            else (RuneError, 1)
        | _ => (RuneError, 1)
        end
      else if between 0xF0 0xF4 s0 then
        let lo := if (s0 =? 0xF0)%N then 0x90%N else 0x80%N in
        let hi := if (s0 =? 0xF4)%N then 0x8F%N else 0xBF%N in
        match p1 with
        | s1 :: s2 :: s3 :: _ =>
            if between lo hi s1 then
              if is_cont s2 then
                if is_cont s3
                then (N.lor (N.shiftl (N.land s0 0x07) 18)
                        (N.lor (N.shiftl (cont_bits s1) 12)
                           (N.lor (N.shiftl (cont_bits s2) 6)
                              (cont_bits s3))), 4)
                else (RuneError, 1)
              else (RuneError, 1)
            else (RuneError, 1)
        | _ => (RuneError, 1)
        end
      else (RuneError, 1)
  end.

(** The runes that the matcher steps through.  The fuel is the number of
    bytes, and each step consumes at least one. *)
Fixpoint runes_fuel (fuel : nat) (p : list N) : list N :=
  match fuel, p with
  | S fuel', _ :: _ =>
      let '(r, w) := DecodeRune p in r :: runes_fuel fuel' (drop w p)
  | _, _ => []
  end.

Definition runes (s : string) : list N :=
  runes_fuel (String.length s) (bytes s).

(** The syntax of the regular expressions of this file.  A class is a list
    of inclusive rune ranges, possibly negated. *)
Inductive re : Type :=
  | ReNone
  | ReEmpty
  | ReClass (negated : bool) (ranges : list (N * N))
  | ReCat (r1 r2 : re)
  | ReAlt (r1 r2 : re)
  | ReStar (r : re)
  | RePlus (r : re).

Definition in_ranges (c : N) (ranges : list (N * N)) : bool :=
  existsb (λ lh, between lh.1 lh.2 c) ranges.

Definition class_matches (negated : bool) (ranges : list (N * N)) (c : N)
  : bool :=
  xorb negated (in_ranges c ranges).

Fixpoint nullable (r : re) : bool :=
  match r with
  | ReNone => false
  | ReEmpty => true
  | ReClass _ _ => false
  | ReCat r1 r2 => nullable r1 && nullable r2
  | ReAlt r1 r2 => nullable r1 || nullable r2
  | ReStar _ => true
  | RePlus r => nullable r
  end.

(** The derivative of an expression by a rune. *)
Fixpoint deriv (c : N) (r : re) : re :=
  match r with
  | ReNone => ReNone
  | ReEmpty => ReNone
  | ReClass negated ranges =>
      if class_matches negated ranges c then ReEmpty else ReNone
  | ReCat r1 r2 =>
      if nullable r1
      then ReAlt (ReCat (deriv c r1) r2) (deriv c r2)
      else ReCat (deriv c r1) r2
  | ReAlt r1 r2 => ReAlt (deriv c r1) (deriv c r2)
  | ReStar r => ReCat (deriv c r) (ReStar r)
  | RePlus r => ReCat (deriv c r) (ReStar r)
  end.

(** Whether the whole rune sequence is in the language of the expression. *)
Fixpoint full_match (r : re) (rs : list N) : bool :=
  match rs with
  | [] => nullable r
  | c :: rs' => full_match (deriv c r) rs'
  end.

(** The language of an expression. *)
Inductive matches : re → list N → Prop :=
  | M_Empty : matches ReEmpty []
  | M_Class negated ranges c :
      class_matches negated ranges c = true →
      matches (ReClass negated ranges) [c]
  | M_Cat r1 r2 s1 s2 :
      matches r1 s1 → matches r2 s2 → matches (ReCat r1 r2) (s1 ++ s2)
  | M_AltL r1 r2 s : matches r1 s → matches (ReAlt r1 r2) s
  | M_AltR r1 r2 s : matches r2 s → matches (ReAlt r1 r2) s
  | M_Star0 r : matches (ReStar r) []
  | M_StarApp r s1 s2 :
      matches r s1 → matches (ReStar r) s2 → matches (ReStar r) (s1 ++ s2)
  | M_Plus r s1 s2 :
      matches r s1 → matches (ReStar r) s2 → matches (RePlus r) (s1 ++ s2).

(** Any rune, newline included: what is left of the input outside a
    match. *)
Definition any_rune : re := ReClass true [].

(** A compiled pattern: its body, and whether it opens with [^] and closes
    with [$] (no flag is set, so these are the ends of the text). *)
Record Regexp : Type := mkRegexp {
  begin_text : bool;
  body : re;
  end_text : bool;
}.

(** [re.MatchString(s)]: whether the string contains a match. *)
Definition MatchString (r : Regexp) (s : string) : bool :=
  full_match
    (ReCat (if begin_text r then ReEmpty else ReStar any_rune)
       (ReCat (body r) (if end_text r then ReEmpty else ReStar any_rune)))
    (runes s).

(** A [schema.SchemaValidateFunc]: the warnings and the errors for a value
    of a key. *)
Definition SchemaValidateFunc : Type :=
  value → string → list string * list error.

(** [validation.StringLenBetween(min, max)] *)
Definition StringLenBetween (min max : Z) : SchemaValidateFunc := λ i k,
  match i with
  | VString v =>
      if (len v <? min)%Z || (max <? len v)%Z
      then ([], [Errorf ("expected length of " ++ k
                         ++ " to be in the range (" ++ pretty min ++ " - "
                         ++ pretty max ++ "), got " ++ v)])
      else ([], [])
  | _ => ([], [Errorf ("expected type of " ++ k ++ " to be string")])
  end.

(** [validation.StringMatch(r, message)] *)
Definition StringMatch (r : Regexp) (message : string) : SchemaValidateFunc :=
  λ i k,
  match i with
  | VString v =>
      if MatchString r v then ([], [])
      else ([], [Errorf ("invalid value for " ++ k ++ " (" ++ message ++ ")")])
  | _ => ([], [Errorf ("expected type of " ++ k ++ " to be string")])
  end.

(** [validation.All(validators...)]: every validator runs, and the warnings
    and errors are collected. *)
Definition All (validators : list SchemaValidateFunc) : SchemaValidateFunc :=
  λ i k,
  fold_left
    (λ acc validator,
       let '(ws, es) := validator i k in (acc.1 ++ ws, acc.2 ++ es))
    validators ([], []).

(** ** [schema.ResourceData] *)

(** The resource data has the levels of the SDK's reader: the prior state,
    the planned values (state, configuration and diff merged) and the values
    written with [d.Set].  [d.Get] reads the top-most level that has the
    key; [d.GetChange] and [d.HasChange] compare the first two levels. *)
Record ResourceData : Type := mkResourceData {
  rd_id : string;
  rd_state : gmap string value;
  rd_planned : gmap string value;
  rd_set : gmap string value;
}.

Definition Id (d : ResourceData) : string := rd_id d.

Definition SetId (d : ResourceData) (v : string) : ResourceData :=
  mkResourceData v (rd_state d) (rd_planned d) (rd_set d).

(** ** The schema of [ResourceInstance] *)

Inductive ValueType : Type :=
  | TypeString | TypeInt | TypeFloat | TypeBool | TypeList | TypeMap.

(** A [schema.SchemaDiffSuppressFunc]: the key, the old and the new value
    and the resource data. *)
Definition SchemaDiffSuppressFunc : Type :=
  string → string → string → ResourceData → bool.

Record Schema : Type := mkSchema {
  Type_ : ValueType;
  Required : bool;
  Optional : bool;
  ForceNew : bool;
  Computed : bool;
  Default : option value;
  ValidateFunc : option SchemaValidateFunc;
  DiffSuppressFunc : option SchemaDiffSuppressFunc;
}.

Definition required_force_new (t : ValueType) : Schema :=
  mkSchema t true false true false None None None.
Definition optional_force_new (t : ValueType) : Schema :=
  mkSchema t false true true false None None None.
Definition computed (t : ValueType) : Schema :=
  mkSchema t false false false true None None None.

(** [tftags.TagsSchema()] and [tftags.TagsSchemaComputed()]: maps of
    strings, the first optional, the second optional and computed. *)
Definition TagsSchema : Schema :=
  mkSchema TypeMap false true false false None None None.
Definition TagsSchemaComputed : Schema :=
  mkSchema TypeMap false true false true None None None.

(** *** The attribute [name] *)

(** The rune of a one-character literal. *)
Definition rune (c : string) : N :=
  match c with
  | String a _ => N_of_ascii a
  | EmptyString => 0%N
  end.

(** [[a-zA-Z]] *)
Definition class_alpha : list (N * N) :=
  [(rune "a", rune "z"); (rune "A", rune "Z")].
(** [[a-zA-Z0-9_\-.]] *)
Definition class_name : list (N * N) :=
  [(rune "a", rune "z"); (rune "A", rune "Z"); (rune "0", rune "9");
   (rune "_", rune "_"); (rune "-", rune "-"); (rune ".", rune ".")].
(** [[^._\-]], as the ranges that it excludes *)
Definition class_trailing : list (N * N) :=
  [(rune ".", rune "."); (rune "_", rune "_"); (rune "-", rune "-")].

(** [regexp.MustCompile(`^[a-zA-Z]`)] *)
Definition re_begins_alpha : Regexp :=
  mkRegexp true (ReClass false class_alpha) false.

(** [regexp.MustCompile(`^[a-zA-Z0-9_\-.]+[^._\-]$`)] *)
Definition re_name_chars : Regexp :=
  mkRegexp true
    (ReCat (RePlus (ReClass false class_name)) (ReClass true class_trailing))
    true.

(** The [ValidateFunc] of [name]. *)
Definition name_ValidateFunc : SchemaValidateFunc :=
  All [ StringLenBetween 2 255;
        StringMatch re_begins_alpha "must begin with an alphabetic character";
        StringMatch re_name_chars
          "must contain only alphanumeric characters, underscores, hyphens, and dots" ].

(** The schema engine rejects a configuration whose validation reports an
    error, before any handler runs. *)
Definition name_accepted (name : string) : bool :=
  match (name_ValidateFunc (VString name) "name").2 with
  | [] => true
  | _ :: _ => false
  end.

(** *** The attribute [key_pair_name] *)

(** The [DiffSuppressFunc] of [key_pair_name]. *)
Definition key_pair_name_DiffSuppressFunc
  (k old new : string) (d : ResourceData) : bool :=
  if String.eqb old "LightsailDefaultKeyPair" && String.eqb new "" then true
  else false.

(** *** The schema map *)

Definition ResourceInstance_Schema : list (string * Schema) :=
  [ ("name",
       mkSchema TypeString true false true false None
         (Some name_ValidateFunc) None);
    ("availability_zone", required_force_new TypeString);
    ("blueprint_id", required_force_new TypeString);
    ("bundle_id", required_force_new TypeString);
    ("key_pair_name",
       mkSchema TypeString false true true false None None
         (Some key_pair_name_DiffSuppressFunc));
    ("user_data", optional_force_new TypeString);
    ("arn", computed TypeString);
    ("created_at", computed TypeString);
    ("cpu_count", computed TypeInt);
    ("ram_size", computed TypeFloat);
    ("ip_address_type",
       mkSchema TypeString false true false false
         (Some (VString "dualstack")) None None);
    ("ipv6_address", computed TypeString);
    ("ipv6_addresses", computed TypeList);
    ("is_static_ip", computed TypeBool);
    ("private_ip_address", computed TypeString);
    ("public_ip_address", computed TypeString);
    ("username", computed TypeString);
    ("tags", TagsSchema);
    ("tags_all", TagsSchemaComputed) ].

Fixpoint schema_lookup (l : list (string * Schema)) (k : string)
  : option Schema :=
  match l with
  | [] => None
  | (k', s) :: l' => if String.eqb k' k then Some s else schema_lookup l' k
  end.

Definition schema_of (k : string) : option Schema :=
  schema_lookup ResourceInstance_Schema k.

(** ** Reading and writing the resource data *)

(** The zero value of a schema type, which [d.Get] returns for an attribute
    that is not set. *)
Definition zero_value (t : ValueType) : value :=
  match t with
  | TypeString => VString ""
  | TypeInt => VInt 0%Z
  | TypeFloat => VFloat 0%Z
  | TypeBool => VBool false
  | TypeList => VList []
  | TypeMap => VMap ∅
  end.

Definition has_type (t : ValueType) (v : value) : bool :=
  match v, t with
  | VNil, _ => true
  | VString _, TypeString => true
  | VInt _, TypeInt => true
  | VFloat _, TypeFloat => true
  | VBool _, TypeBool => true
  | VList _, TypeList => true
  | VMap _, TypeMap => true
  | _, _ => false
  end.

Definition zero_of_key (k : string) : value :=
  match schema_of k with
  | Some s => zero_value (Type_ s)
  | None => VNil
  end.

(** A level's value for a key, read through the schema: a missing or nil
    entry, or one that is not of the schema's type, reads as the zero
    value. *)
Definition read_level (m : gmap string value) (k : string) : value :=
  match m !! k, schema_of k with
  | Some VNil, _ => zero_of_key k
  | Some v, Some s => if has_type (Type_ s) v then v else zero_of_key k
  | _, _ => zero_of_key k
  end.

Definition Get (d : ResourceData) (k : string) : value :=
  match rd_set d !! k with
  | Some _ => read_level (rd_set d) k
  | None => read_level (rd_planned d) k
  end.

Definition value_eqb (a b : value) : bool :=
  match a, b with
  | VNil, VNil => true
  | VString x, VString y => String.eqb x y
  | VInt x, VInt y => Z.eqb x y
  | VFloat x, VFloat y => Z.eqb x y
  | VBool x, VBool y => Bool.eqb x y
  | VList x, VList y => bool_decide (x = y)
  | VMap x, VMap y => bool_decide (x = y)
  | _, _ => false
  end.

(** [d.GetOk]: the value, and whether it differs from the zero value. *)
Definition GetOk (d : ResourceData) (k : string) : value * bool :=
  let v := Get d k in (v, negb (value_eqb v (zero_of_key k))).

(** [d.GetChange]: the old and the new value. *)
Definition GetChange (d : ResourceData) (k : string) : value * value :=
  (read_level (rd_state d) k, read_level (rd_planned d) k).

Definition HasChange (d : ResourceData) (k : string) : bool :=
  let '(o, n) := GetChange d k in negb (value_eqb o n).

Definition write (k : string) (v : value) (d : ResourceData) : ResourceData :=
  mkResourceData (rd_id d) (rd_state d) (rd_planned d) (<[k := v]> (rd_set d)).

(** [d.Set]: the value is checked against the schema; a key outside the
    schema or a value of another type is an error and writes nothing. *)
Definition Set_ (d : ResourceData) (k : string) (v : value)
  : ResourceData * option error :=
  match schema_of k with
  | None => (d, Some (Errorf ("Invalid address to set: " ++ k)))
  | Some s =>
      if has_type (Type_ s) v
      then (write k v d, None)
      else (d, Some (Errorf (k ++ ": value of the wrong type")))
  end.

(** The type assertions [d.Get(k).(string)] and
    [d.Get(k).(map[string]interface{})].  [d.Get] gives a value of the
    key's schema type, so the assertions of the handlers hold; the other
    branch is not reached. *)
Definition as_string (v : value) : string :=
  match v with VString s => s | _ => "" end.
Definition as_map (v : value) : gmap string string :=
  match v with VMap m => m | _ => ∅ end.

(** ** The vendor API: the types of the AWS SDK's [lightsail] package

    A Go pointer field is an [option]; a slice of pointers is a list of
    options. *)

Record Tag : Type := mkTag {
  Tag_Key : option string;
  Tag_Value : option string;
}.

Record Operation : Type := mkOperation {
  Operation_Id : option string;
  Operation_Status : option string;
}.

Record CreateInstancesInput : Type := mkCreateInstancesInput {
  CreateInstancesInput_AvailabilityZone : option string;
  CreateInstancesInput_BlueprintId : option string;
  CreateInstancesInput_BundleId : option string;
  CreateInstancesInput_InstanceNames : list (option string);
  CreateInstancesInput_KeyPairName : option string;
  CreateInstancesInput_UserData : option string;
  CreateInstancesInput_IpAddressType : option string;
  CreateInstancesInput_Tags : list Tag;
}.

Record CreateInstancesOutput : Type := mkCreateInstancesOutput {
  CreateInstancesOutput_Operations : list (option Operation);
}.

Record GetInstanceInput : Type := mkGetInstanceInput {
  GetInstanceInput_InstanceName : option string;
}.

(** A [time.Time]: seconds since the epoch and the zone offset. *)
Record Time : Type := mkTime {
  Time_unix : Z;
  Time_offset : Z;
}.

Record InstanceHardware : Type := mkInstanceHardware {
  InstanceHardware_CpuCount : option Z;
  InstanceHardware_RamSizeInGb : option float64;
}.

Record ResourceLocation : Type := mkResourceLocation {
  ResourceLocation_AvailabilityZone : option string;
}.

Record Instance : Type := mkInstance {
  Instance_Arn : option string;
  Instance_BlueprintId : option string;
  Instance_BundleId : option string;
  Instance_CreatedAt : option Time;
  Instance_Hardware : option InstanceHardware;
  Instance_IpAddressType : option string;
  Instance_Ipv6Addresses : list (option string);
  Instance_IsStaticIp : option bool;
  Instance_Location : option ResourceLocation;
  Instance_Name : option string;
  Instance_PrivateIpAddress : option string;
  Instance_PublicIpAddress : option string;
  Instance_SshKeyName : option string;
  Instance_Tags : list Tag;
  Instance_Username : option string;
}.

Record GetInstanceOutput : Type := mkGetInstanceOutput {
  GetInstanceOutput_Instance : option Instance;
}.

Record DeleteInstanceInput : Type := mkDeleteInstanceInput {
  DeleteInstanceInput_InstanceName : option string;
}.

Record DeleteInstanceOutput : Type := mkDeleteInstanceOutput {
  DeleteInstanceOutput_Operations : list (option Operation);
}.

Record SetIpAddressTypeInput : Type := mkSetIpAddressTypeInput {
  SetIpAddressTypeInput_ResourceName : option string;
  SetIpAddressTypeInput_ResourceType : option string;
  SetIpAddressTypeInput_IpAddressType : option string;
}.

Record SetIpAddressTypeOutput : Type := mkSetIpAddressTypeOutput {
  SetIpAddressTypeOutput_Operations : list (option Operation);
}.

(** [aws.StringValue] and [aws.StringValueSlice]: nil reads as the empty
    string. *)
Definition StringValue (p : option string) : string := default "" p.
Definition StringValueSlice (l : list (option string)) : list string :=
  StringValue <$> l.

(** A pointer handed to [d.Set]. *)
Definition ptr {A : Type} (f : A → value) (p : option A) : value :=
  match p with
  | Some a => f a
  | None => VNil
  end.

(** ** Tags

    [tftags.KeyValueTags] is a map from a key to a tag's value, which is a
    pointer. *)
Abbreviation KeyValueTagsT := (gmap string (option string)).

(** Modelled from the spec: [tftags.New] (package internal/tags, not among
    the sources), which turns the configured map of strings into a tag
    set. *)
Definition tftags_New (m : gmap string string) : KeyValueTagsT := Some <$> m.

(** Modelled from the spec: [DefaultConfig.MergeTags] (package
    internal/tags), the handler-default tags merged with the
    resource-specific ones, the resource-specific ones winning; a nil
    configuration leaves the tags as they are. *)
Definition MergeTags (dtc : option KeyValueTagsT) (tags : KeyValueTagsT)
  : KeyValueTagsT :=
  match dtc with
  | None => tags
  | Some dt => tags ∪ dt
  end.

(** Modelled from the spec: [KeyValueTags.RemoveDefaultConfig] (package
    internal/tags): the tags that are equal to a default tag are removed. *)
Definition RemoveDefaultConfig (dtc : option KeyValueTagsT)
  (tags : KeyValueTagsT) : KeyValueTagsT :=
  match dtc with
  | None => tags
  | Some dt => filter (λ kv, dt !! kv.1 ≠ Some kv.2) tags
  end.

(** Modelled from the spec: [KeyValueTags.Map] (package internal/tags), the
    tag set as a map of strings. *)
Definition Map (tags : KeyValueTagsT) : gmap string string :=
  StringValue <$> tags.

(** Modelled from the spec: [KeyValueTags] of the lightsail package
    (tags_gen.go, not among the sources), the tag list of an API response
    as a tag set; a later tag of the same key replaces an earlier one. *)
Definition KeyValueTags (tags : list Tag) : KeyValueTagsT :=
  fold_left (λ m t, <[StringValue (Tag_Key t) := Tag_Value t]> m) tags ∅.

(** Modelled from the spec: [Tags] of the lightsail package (tags_gen.go),
    a tag set as the tag list of an API request.  Go leaves the order of the
    list open; the model lists the keys in the order of [map_to_list]. *)
Definition Tags (tags : KeyValueTagsT) : list Tag :=
  (λ kv, mkTag (Some kv.1) (Some (StringValue kv.2))) <$> map_to_list tags.

(** ** The handlers *)

(** The remote control plane is an abstract [World]; an API call reads and
    writes it. *)

(** [*lightsail.Lightsail]: the client of the vendor API.  A call returns
    the pair (response, error) of the Go method, either of which may be nil,
    and the control plane after the call. *)
Record Conn (World : Type) : Type := mkConn {
  CreateInstances :
    CreateInstancesInput → World →
    (option CreateInstancesOutput * option error) * World;
  GetInstance :
    GetInstanceInput → World →
    (option GetInstanceOutput * option error) * World;
  DeleteInstance :
    DeleteInstanceInput → World →
    (option DeleteInstanceOutput * option error) * World;
  SetIpAddressType :
    SetIpAddressTypeInput → World →
    (option SetIpAddressTypeOutput * option error) * World;
}.
Arguments mkConn {World}.
Arguments CreateInstances {World}.
Arguments GetInstance {World}.
Arguments DeleteInstance {World}.
Arguments SetIpAddressType {World}.

(** What the handlers use and the sources do not hold.
    - [tftags.IgnoreConfig] and the filters [IgnoreAWS] and [IgnoreConfig]
      of package internal/tags;
    - [waitOperation] (wait.go) and [UpdateTags] (tags_gen.go) of this
      package: both talk to the vendor API through the connection and return
      an error or nil;
    - [t.Format(time.RFC3339)] of Go's library. *)
Class Externals (World : Type) : Type := mkExternals {
  IgnoreConfigT : Type;
  IgnoreAWS : KeyValueTagsT → KeyValueTagsT;
  IgnoreConfig : option IgnoreConfigT → KeyValueTagsT → KeyValueTagsT;
  waitOperation : Conn World → option string → World → option error * World;
  UpdateTags :
    Conn World → string → value → value → World → option error * World;
  Format_RFC3339 : Time → string;
}.

(** The outgoing calls of a handler, in order (a ghost trace). *)
Inductive Call : Type :=
  | CallCreateInstances (req : CreateInstancesInput)
  | CallGetInstance (req : GetInstanceInput)
  | CallDeleteInstance (req : DeleteInstanceInput)
  | CallSetIpAddressType (req : SetIpAddressTypeInput)
  | CallWaitOperation (oid : option string)
  | CallUpdateTags (id : string) (o n : value).

Record State (World : Type) : Type := mkState {
  world : World;
  rd : ResourceData;
  log : list string;
  trace : list Call;
}.
Arguments mkState {World}.
Arguments world {World}.
Arguments rd {World}.
Arguments log {World}.
Arguments trace {World}.

(** A handler either returns, in a new state, or panics, in the state that
    it has reached. *)
Inductive Outcome (World A : Type) : Type :=
  | Normal (a : A) (s : State World)
  | Panic (msg : string) (s : State World).
Arguments Normal {World A} a s.
Arguments Panic {World A} msg s.

Definition final {World A : Type} (o : Outcome World A) : State World :=
  match o with
  | Normal _ s => s
  | Panic _ s => s
  end.

Definition M (World A : Type) : Type := State World → Outcome World A.

#[global] Instance M_ret {World} : MRet (M World) := λ A a s, Normal a s.
#[global] Instance M_bind {World} : MBind (M World) := λ A B f m s,
  match m s with
  | Normal a s' => f a s'
  | Panic msg s' => Panic msg s'
  end.

Section Handlers.

Context {World : Type} `{!Externals World}.

(** [*conns.AWSClient], the [meta] argument of a handler. *)
Record AWSClient : Type := mkAWSClient {
  LightsailConn : Conn World;
  DefaultTagsConfig : option KeyValueTagsT;
  IgnoreTagsConfig : option IgnoreConfigT;
}.

Definition panic {A : Type} (msg : string) : M World A := λ s, Panic msg s.

Definition nil_dereference : string :=
  "invalid memory address or nil pointer dereference".
Definition index_out_of_range : string :=
  "index out of range [0] with length 0".

(** [*p] and [p.field] on a pointer. *)
Definition deref {A : Type} (p : option A) : M World A :=
  match p with
  | Some a => mret a
  | None => panic nil_dereference
  end.

(** The resource data behind the pointer [d]. *)
Definition get_d : M World ResourceData := λ s, Normal (rd s) s.

Definition d_SetId (v : string) : M World unit := λ s,
  Normal tt (mkState (world s) (SetId (rd s) v) (log s) (trace s)).

Definition d_Set (k : string) (v : value) : M World (option error) := λ s,
  let '(d', err) := Set_ (rd s) k v in
  Normal err (mkState (world s) d' (log s) (trace s)).

(** [log.Printf], with the line already formatted. *)
Definition log_Printf (line : string) : M World unit := λ s,
  Normal tt (mkState (world s) (rd s) (log s ++ [line]) (trace s)).

(** An outgoing call: it is recorded and run on the control plane. *)
Definition call {A : Type} (c : Call) (f : World → A * World)
  : M World A := λ s,
  let '(a, w') := f (world s) in
  Normal a (mkState w' (rd s) (log s) (trace s ++ [c])).

Definition conn_CreateInstances (conn : Conn World)
  (req : CreateInstancesInput) :=
  call (CallCreateInstances req) (CreateInstances conn req).
Definition conn_GetInstance (conn : Conn World) (req : GetInstanceInput) :=
  call (CallGetInstance req) (GetInstance conn req).
Definition conn_DeleteInstance (conn : Conn World)
  (req : DeleteInstanceInput) :=
  call (CallDeleteInstance req) (DeleteInstance conn req).
Definition conn_SetIpAddressType (conn : Conn World)
  (req : SetIpAddressTypeInput) :=
  call (CallSetIpAddressType req) (SetIpAddressType conn req).
Definition do_waitOperation (conn : Conn World) (oid : option string) :=
  call (CallWaitOperation oid) (waitOperation conn oid).
Definition do_UpdateTags (conn : Conn World) (id : string) (o n : value) :=
  call (CallUpdateTags id o n) (UpdateTags conn id o n).

(** [v, ok := d.GetOk(k); if ok { field = aws.String(v.(string)) }] *)
Definition optional_string (d : ResourceData) (k : string) : option string :=
  let '(v, ok) := GetOk d k in
  if ok then Some (as_string v) else None.

(** The request of [resourceInstanceRead]. *)
Definition get_request (d : ResourceData) : GetInstanceInput :=
  mkGetInstanceInput (Some (Id d)).

(** The request of [resourceInstanceDelete]. *)
Definition delete_request (d : ResourceData) : DeleteInstanceInput :=
  mkDeleteInstanceInput (Some (Id d)).

Definition resourceInstanceRead (meta : AWSClient) : M World (option error) :=
  let conn := LightsailConn meta in
  let defaultTagsConfig := DefaultTagsConfig meta in
  let ignoreTagsConfig := IgnoreTagsConfig meta in
  d ← get_d;
  '(resp, err) ← conn_GetInstance conn (get_request d);
  match err with
  | Some err =>
      match as_awserr err with
      | Some code =>
          if String.eqb code "NotFoundException" then
            log_Printf ("[WARN] Lightsail Instance (" ++ Id d
                        ++ ") not found, removing from state");;
            d_SetId "";;
            mret None
          else mret (Some err)
      | None => mret (Some err)
      end
  | None =>
      match resp with
      | None =>
          log_Printf ("[WARN] Lightsail Instance (" ++ Id d
            ++ ") not found, nil response from server, removing from state");;
          d_SetId "";;
          mret None
      | Some resp =>
          i ← deref (GetInstanceOutput_Instance resp);
          Location ← deref (Instance_Location i);
          d_Set "availability_zone"
            (ptr VString (ResourceLocation_AvailabilityZone Location));;
          d_Set "blueprint_id" (ptr VString (Instance_BlueprintId i));;
          d_Set "bundle_id" (ptr VString (Instance_BundleId i));;
          d_Set "key_pair_name" (ptr VString (Instance_SshKeyName i));;
          d_Set "name" (ptr VString (Instance_Name i));;
          d_Set "arn" (ptr VString (Instance_Arn i));;
          d_Set "username" (ptr VString (Instance_Username i));;
          CreatedAt ← deref (Instance_CreatedAt i);
          d_Set "created_at" (VString (Format_RFC3339 CreatedAt));;
          Hardware ← deref (Instance_Hardware i);
          d_Set "cpu_count" (ptr VInt (InstanceHardware_CpuCount Hardware));;
          d_Set "ram_size" (ptr VFloat (InstanceHardware_RamSizeInGb Hardware));;
          match Instance_Ipv6Addresses i with
          | a :: _ => d_Set "ipv6_address" (ptr VString a);; mret tt
          | [] => mret tt
          end;;
          d_Set "ipv6_addresses"
            (VList (StringValueSlice (Instance_Ipv6Addresses i)));;
          d_Set "ip_address_type" (ptr VString (Instance_IpAddressType i));;
          d_Set "is_static_ip" (ptr VBool (Instance_IsStaticIp i));;
          d_Set "private_ip_address"
            (ptr VString (Instance_PrivateIpAddress i));;
          d_Set "public_ip_address" (ptr VString (Instance_PublicIpAddress i));;
          let tags :=
            IgnoreConfig ignoreTagsConfig
              (IgnoreAWS (KeyValueTags (Instance_Tags i))) in
          err ← d_Set "tags"
                  (VMap (Map (RemoveDefaultConfig defaultTagsConfig tags)));
          match err with
          | Some err => mret (Some (Errorf_w "error setting tags: " err))
          | None =>
              err ← d_Set "tags_all" (VMap (Map tags));
              match err with
              | Some err =>
                  mret (Some (Errorf_w "error setting tags_all: " err))
              | None => mret None
              end
          end
      end
  end.

(** The request that [resourceInstanceCreate] builds from the resource
    data. *)
Definition create_request (meta : AWSClient) (d : ResourceData)
  : CreateInstancesInput :=
  let defaultTagsConfig := DefaultTagsConfig meta in
  let tags :=
    MergeTags defaultTagsConfig (tftags_New (as_map (Get d "tags"))) in
  let iName := as_string (Get d "name") in
  mkCreateInstancesInput
    (Some (as_string (Get d "availability_zone")))
    (Some (as_string (Get d "blueprint_id")))
    (Some (as_string (Get d "bundle_id")))
    [Some iName]
    (optional_string d "key_pair_name")
    (optional_string d "user_data")
    (optional_string d "ip_address_type")
    (if bool_decide (0 < size tags) then Tags (IgnoreAWS tags) else []).

Definition resourceInstanceCreate (meta : AWSClient)
  : M World (option error) :=
  let conn := LightsailConn meta in
  d ← get_d;
  let req := create_request meta d in
  '(resp, err) ← conn_CreateInstances conn req;
  match err with
  | Some err => mret (Some err)
  | None =>
      resp ← deref resp;
      match CreateInstancesOutput_Operations resp with
      | [] =>
          mret (Some (Errorf "No operations found for CreateInstance request"))
      | op :: _ =>
          d ← get_d;
          d_SetId (as_string (Get d "name"));;
          op ← deref op;
          err ← do_waitOperation conn (Operation_Id op);
          match err with
          | Some err =>
              (* no error is returned here: the Create call succeeded *)
              d ← get_d;
              log_Printf ("[ERR] Error waiting for instance (" ++ Id d
                          ++ ") to become ready: " ++ Error err)
          | None => mret tt
          end;;
          resourceInstanceRead meta
      end
  end.

Definition resourceInstanceDelete (meta : AWSClient)
  : M World (option error) :=
  let conn := LightsailConn meta in
  d ← get_d;
  '(resp, err) ← conn_DeleteInstance conn (delete_request d);
  match err with
  | Some err => mret (Some err)
  | None =>
      resp ← deref resp;
      match DeleteInstanceOutput_Operations resp with
      | [] => panic index_out_of_range
      | op :: _ =>
          op ← deref op;
          err ← do_waitOperation conn (Operation_Id op);
          match err with
          | Some err =>
              d ← get_d;
              mret (Some (Errorf ("Error waiting for instance (" ++ Id d
                                  ++ ") to become destroyed: " ++ Error err)))
          | None => mret None
          end
      end
  end.

(** The request of the first block of [resourceInstanceUpdate]. *)
Definition set_ip_request (d : ResourceData) : SetIpAddressTypeInput :=
  mkSetIpAddressTypeInput (Some (Id d)) (Some "Instance")
    (Some (as_string (Get d "ip_address_type"))).

(** The first block of [resourceInstanceUpdate]; [Some err] is its early
    [return err]. *)
Definition update_ip_address_type (conn : Conn World)
  : M World (option error) :=
  d ← get_d;
  if HasChange d "ip_address_type" then
    '(resp, err) ← conn_SetIpAddressType conn (set_ip_request d);
    match err with
    | Some err => mret (Some err)
    | None =>
        resp ← deref resp;
        match SetIpAddressTypeOutput_Operations resp with
        | [] =>
            mret (Some
              (Errorf "No operations found for CreateInstance request"))
        | op :: _ =>
            op ← deref op;
            do_waitOperation conn (Operation_Id op)
        end
    end
  else mret None.

(** The second block of [resourceInstanceUpdate]. *)
Definition update_tags_all (conn : Conn World) : M World (option error) :=
  d ← get_d;
  if HasChange d "tags_all" then
    let '(o, n) := GetChange d "tags_all" in
    err ← do_UpdateTags conn (Id d) o n;
    match err with
    | Some err =>
        d ← get_d;
        mret (Some (Errorf ("error updating Lightsail Instance (" ++ Id d
                            ++ ") tags: " ++ Error err)))
    | None => mret None
    end
  else mret None.

Definition resourceInstanceUpdate (meta : AWSClient)
  : M World (option error) :=
  let conn := LightsailConn meta in
  err ← update_ip_address_type conn;
  match err with
  | Some err => mret (Some err)
  | None =>
      err ← update_tags_all conn;
      match err with
      | Some err => mret (Some err)
      | None => resourceInstanceRead meta
      end
  end.

(** *** Vocabulary of the statements *)

(** The lines that the handlers log. *)
Definition not_found_line (d : ResourceData) : string :=
  "[WARN] Lightsail Instance (" ++ Id d ++ ") not found, removing from state".

Definition wait_failed_line (d : ResourceData) (err : error) : string :=
  "[ERR] Error waiting for instance (" ++ Id d ++ ") to become ready: "
  ++ Error err.

(** The operation identifiers that a trace waited on, in order. *)
Definition waited (tr : list Call) : list (option string) :=
  omap (λ c, match c with CallWaitOperation oid => Some oid | _ => None end)
    tr.

(** What a caller sees of an outcome: the returned error or the panic, and
    the resource data. *)
Definition observe {A : Type} (o : Outcome World A)
  : (A + string) * ResourceData :=
  match o with
  | Normal a s => (inl a, rd s)
  | Panic msg s => (inr msg, rd s)
  end.

(** The three handlers that start with a mutating call. *)
Inductive Mutation : Type :=
  | MutCreate
  | MutDelete
  | MutSetIpAddressType.

Definition handler (c : Mutation) (meta : AWSClient)
  : M World (option error) :=
  match c with
  | MutCreate => resourceInstanceCreate meta
  | MutDelete => resourceInstanceDelete meta
  | MutSetIpAddressType => resourceInstanceUpdate meta
  end.

Definition mutation_call (c : Mutation) (meta : AWSClient) (d : ResourceData)
  : Call :=
  match c with
  | MutCreate => CallCreateInstances (create_request meta d)
  | MutDelete => CallDeleteInstance (delete_request d)
  | MutSetIpAddressType => CallSetIpAddressType (set_ip_request d)
  end.

(** The answer to the mutating call of a handler in a state: the response's
    operations (when there is a response), the error and the control plane
    after the call.  The update handler makes the call only when
    [ip_address_type] has changed. *)
Definition mutation_response (c : Mutation) (meta : AWSClient)
  (s : State World)
  : option (option (list (option Operation)) * option error * World) :=
  let conn := LightsailConn meta in
  match c with
  | MutCreate =>
      let '(resp, err, w) :=
        CreateInstances conn (create_request meta (rd s)) (world s) in
      Some (CreateInstancesOutput_Operations <$> resp, err, w)
  | MutDelete =>
      let '(resp, err, w) :=
        DeleteInstance conn (delete_request (rd s)) (world s) in
      Some (DeleteInstanceOutput_Operations <$> resp, err, w)
  | MutSetIpAddressType =>
      if HasChange (rd s) "ip_address_type" then
        let '(resp, err, w) :=
          SetIpAddressType conn (set_ip_request (rd s)) (world s) in
        Some (SetIpAddressTypeOutput_Operations <$> resp, err, w)
      else None
  end.

(** The attributes that a read writes. *)
Definition write_all (l : list (string * value)) (d : ResourceData)
  : ResourceData :=
  fold_left (λ d kv, write kv.1 kv.2 d) l d.

Definition instance_tags (meta : AWSClient) (i : Instance) : KeyValueTagsT :=
  IgnoreConfig (IgnoreTagsConfig meta)
    (IgnoreAWS (KeyValueTags (Instance_Tags i))).

Definition instance_attributes (meta : AWSClient) (i : Instance)
  (loc : ResourceLocation) (t : Time) (hw : InstanceHardware)
  : list (string * value) :=
  [ ("availability_zone",
       ptr VString (ResourceLocation_AvailabilityZone loc));
    ("blueprint_id", ptr VString (Instance_BlueprintId i));
    ("bundle_id", ptr VString (Instance_BundleId i));
    ("key_pair_name", ptr VString (Instance_SshKeyName i));
    ("name", ptr VString (Instance_Name i));
    ("arn", ptr VString (Instance_Arn i));
    ("username", ptr VString (Instance_Username i));
    ("created_at", VString (Format_RFC3339 t));
    ("cpu_count", ptr VInt (InstanceHardware_CpuCount hw));
    ("ram_size", ptr VFloat (InstanceHardware_RamSizeInGb hw)) ]
  ++ match Instance_Ipv6Addresses i with
     | a :: _ => [("ipv6_address", ptr VString a)]
     | [] => []
     end
  ++ [ ("ipv6_addresses",
          VList (StringValueSlice (Instance_Ipv6Addresses i)));
       ("ip_address_type", ptr VString (Instance_IpAddressType i));
       ("is_static_ip", ptr VBool (Instance_IsStaticIp i));
       ("private_ip_address", ptr VString (Instance_PrivateIpAddress i));
       ("public_ip_address", ptr VString (Instance_PublicIpAddress i));
       ("tags",
          VMap (Map (RemoveDefaultConfig (DefaultTagsConfig meta)
                       (instance_tags meta i))));
       ("tags_all", VMap (Map (instance_tags meta i))) ].

(** Whether an error is the vendor's not-found error. *)
Definition is_not_found (err : error) : bool :=
  match err with
  | AwsError code _ => String.eqb code "NotFoundException"
  | _ => false
  end.

(** A computation that waits on no operation. *)
Definition no_wait {A : Type} (m : M World A) : Prop :=
  ∀ s, waited (trace (final (m s))) = waited (trace s).

(** The state right after a call that left the control plane in [w]. *)
Definition called (c : Call) (w : World) (s : State World) : State World :=
  mkState w (rd s) (log s) (trace s ++ [c]).

Definition no_operations : error :=
  Errorf "No operations found for CreateInstance request".

(** What the handlers do with the first operation of the answer. *)
Definition create_wait (meta : AWSClient) (op : option Operation)
  : M World (option error) :=
  d ← get_d;
  d_SetId (as_string (Get d "name"));;
  op ← deref op;
  err ← do_waitOperation (LightsailConn meta) (Operation_Id op);
  match err with
  | Some err => d ← get_d; log_Printf (wait_failed_line d err)
  | None => mret tt
  end;;
  resourceInstanceRead meta.

Definition delete_wait (meta : AWSClient) (op : option Operation)
  : M World (option error) :=
  op ← deref op;
  err ← do_waitOperation (LightsailConn meta) (Operation_Id op);
  match err with
  | Some err =>
      d ← get_d;
      mret (Some (Errorf ("Error waiting for instance (" ++ Id d
                          ++ ") to become destroyed: " ++ Error err)))
  | None => mret None
  end.

Definition update_wait (meta : AWSClient) (op : option Operation)
  : M World (option error) :=
  op ← deref op;
  err ← do_waitOperation (LightsailConn meta) (Operation_Id op);
  match err with
  | Some err => mret (Some err)
  | None =>
      err ← update_tags_all (LightsailConn meta);
      match err with
      | Some err => mret (Some err)
      | None => resourceInstanceRead meta
      end
  end.

Definition first_wait (c : Mutation) :=
  match c with
  | MutCreate => create_wait
  | MutDelete => delete_wait
  | MutSetIpAddressType => update_wait
  end.

(** The tag property in its unconditional form: in a read that succeeds on
    a response that carries the merged tag set, every tag that comes from
    the defaults alone is in [tags_all] and is not in [tags]. *)
Definition default_only_tags_claim : Prop :=
  ∀ (meta : AWSClient) (s : State World) resp i loc t hw w1
    (dt rt : KeyValueTagsT) k v,
    GetInstance (LightsailConn meta) (get_request (rd s)) (world s)
      = ((Some resp, None), w1) →
    GetInstanceOutput_Instance resp = Some i →
    Instance_Location i = Some loc →
    Instance_CreatedAt i = Some t →
    Instance_Hardware i = Some hw →
    DefaultTagsConfig meta = Some dt →
    KeyValueTags (Instance_Tags i) = MergeTags (Some dt) rt →
    dt !! k = Some v →
    rt !! k = None →
    ∃ s',
      resourceInstanceRead meta s = Normal None s'
      ∧ as_map (Get (rd s') "tags_all") !! k = Some (StringValue v)
      ∧ as_map (Get (rd s') "tags") !! k = None.

End Handlers.

(** ** The operation reconciler

    [waitOperation] is not among the sources.  The definitions below follow
    section 4.1 of the specification. *)

(** The status of an operation: pending, or one of the two terminal
    states. *)
Inductive Status : Type :=
  | Pending
  | Succeeded
  | Failed (reason : string).

(** The answer to one fetch of the operation's status. *)
Inductive Lookup : Type :=
  | Found (status : Status)
  | NotFound
  | Transient (err : string).

(** The tagged result of the wait. *)
Inductive AwaitResult : Type :=
  | AwaitSuccess
  | AwaitFailed (reason : string)
  | AwaitTimeout
  | AwaitLookupError (err : string)
  | AwaitMisuse.

(** Modelled from the spec: the polling loop of [waitOperation].  The
    maximum wait is counted in fetches: [ceiling] is the number of fetches
    that fit in it at the polling interval.  [poll n] is the answer to fetch
    number [n]; [seen] says whether an earlier fetch found the operation and
    [retries] is the number of failed fetches still tolerated.
    - terminal success ends the wait with success;
    - terminal failure ends it with the vendor's reason;
    - a failed fetch is retried while [retries] lasts and ends the wait
      after that; not-found for an operation never seen ends it at once;
    - when the ceiling is reached the wait ends with a timeout. *)
Fixpoint await_from (poll : nat → Lookup) (seen : bool) (retries : nat)
  (n : nat) (ceiling : nat) : AwaitResult :=
  match ceiling with
  | O => AwaitTimeout
  | S ceiling' =>
      match poll n with
      | Found Succeeded => AwaitSuccess
      | Found (Failed reason) => AwaitFailed reason
      | Found Pending => await_from poll true retries (S n) ceiling'
      | NotFound =>
          if seen then
            match retries with
            | O => AwaitLookupError "operation not found"
            | S retries' => await_from poll seen retries' (S n) ceiling'
            end
          else AwaitMisuse
      | Transient err =>
          match retries with
          | O => AwaitLookupError err
          | S retries' => await_from poll seen retries' (S n) ceiling'
          end
      end
  end.

(** Modelled from the spec: [await(operationId)], section 4.1. *)
Definition await (poll : nat → Lookup) (retries ceiling : nat)
  : AwaitResult :=
  await_from poll false retries 0 ceiling.



(** ** The acceptance checks of the load balancer attachment

    The check functions of the test file inspect a [terraform.State] and
    look the attachment up on the control plane. *)

Record InstanceState : Type := mkInstanceState {
  InstanceState_ID : string;
}.

Record ResourceState : Type := mkResourceState {
  ResourceState_Type : string;
  ResourceState_Primary : option InstanceState;
}.

(** [s.RootModule().Resources] of a [*terraform.State] *)
Record TerraformState : Type := mkTerraformState {
  RootModule_Resources : gmap string ResourceState;
}.

(** What the checks use and the sources do not hold:
    - [tflightsail.FindLoadBalancerAttachmentById] with the provider's
      connection, which gives a pointer and an error; a lookup does not
      change the control plane;
    - [tfresource.NotFound];
    - [create.Error] at the constants [names.Lightsail],
      [create.ErrActionCheckingDestroyed] and
      [tflightsail.ResLoadBalancerAttachment], for an identifier and a cause;
    - the verb [%q] of Go's formatting. *)
Class CheckExternals : Type := mkCheckExternals {
  FindLoadBalancerAttachmentById : string → option string * option error;
  tfresource_NotFound : option error → bool;
  create_Error : string → error → error;
  Quote : string → string;
}.

(** A check returns an error or nil, or panics. *)
Inductive CheckOutcome : Type :=
  | Returned (err : option error)
  | Panicked (msg : string).

Section Checks.

Context `{!CheckExternals}.

(** [testAccCheckLoadBalancerAttachmentExists(n, liName)(s)].  The last
    assignment of the function sets its own parameter [liName], not what it
    points to, so the caller's string is never written. *)
Definition testAccCheckLoadBalancerAttachmentExists (n : string)
  (liName : option string) (s : TerraformState) : CheckOutcome :=
  match RootModule_Resources s !! n with
  | None => Returned (Some (Errorf ("Not found: " ++ n)))
  | Some rs =>
      match ResourceState_Primary rs with
      | None => Panicked "invalid memory address or nil pointer dereference"
      | Some Primary =>
          if String.eqb (InstanceState_ID Primary) "" then
            Returned
              (Some (ErrorString "No LightsailLoadBalancerAttachment ID is set"))
          else
            let '(out, err) :=
              FindLoadBalancerAttachmentById (InstanceState_ID Primary) in
            match err with
            | Some err => Returned (Some err)
            | None =>
                match out with
                | None =>
                    Returned
                      (Some (Errorf ("Load Balancer "
                                     ++ Quote (InstanceState_ID Primary)
                                     ++ " does not exist")))
                | Some out => Returned None
                end
            end
      end
  end.

(** The loop of [testAccCheckLoadBalancerAttachmentDestroy] over the
    resources, in the order in which the map gives them. *)
Fixpoint check_destroyed (resources : list (string * ResourceState))
  : CheckOutcome :=
  match resources with
  | [] => Returned None
  | (_, rs) :: rest =>
      if negb (String.eqb (ResourceState_Type rs) "aws_lightsail_lb_attachment")
      then check_destroyed rest
      else
        match ResourceState_Primary rs with
        | None => Panicked "invalid memory address or nil pointer dereference"
        | Some Primary =>
            let '(_, err) :=
              FindLoadBalancerAttachmentById (InstanceState_ID Primary) in
            if tfresource_NotFound err then check_destroyed rest
            else
              match err with
              | Some err => Returned (Some err)
              | None =>
                  Returned
                    (Some (create_Error (InstanceState_ID Primary)
                             (ErrorString "still exists")))
              end
        end
  end.

(** [testAccCheckLoadBalancerAttachmentDestroy(s)].  Go leaves the order of
    the iteration over a map open; the model takes the order of
    [map_to_list]. *)
Definition testAccCheckLoadBalancerAttachmentDestroy (s : TerraformState)
  : CheckOutcome :=
  check_destroyed (map_to_list (RootModule_Resources s)).

(** An attachment that the control plane no longer has. *)
Definition is_gone (rs : ResourceState) : Prop :=
  ∃ Primary,
    ResourceState_Primary rs = Some Primary
    ∧ tfresource_NotFound
        (FindLoadBalancerAttachmentById (InstanceState_ID Primary)).2 = true.

End Checks.

(** ** Names of plain ASCII *)

(** A string all of whose bytes are below [utf8.RuneSelf]. *)
Definition is_ascii (s : string) : Prop :=
  Forall (λ b, (b < 0x80)%N) (bytes s).

(** ** A scripted control plane

    The examples run the handlers against a control plane whose state is a
    counter.  The answers of the API are given per call; every mutating
    call resets the counter. *)

Definition scripted_conn
  (create : nat → option CreateInstancesOutput * option error)
  (get : nat → option GetInstanceOutput * option error)
  (delete : nat → option DeleteInstanceOutput * option error)
  (set_ip : nat → option SetIpAddressTypeOutput * option error)
  : Conn nat :=
  mkConn (λ _ w, (create w, 0)) (λ _ w, (get w, w))
         (λ _ w, (delete w, 0)) (λ _ w, (set_ip w, 0)).

(** Modelled from the spec: the functions of this repository that the
    handlers call and the sources do not hold, as the examples take them.
    The specification does not describe the two ignore filters; they do
    here what their names say: [IgnoreAWS] drops the keys of the [aws:] name
    space and [IgnoreConfig] drops the keys that the handler is configured
    to ignore.  The wait ends with the given result and the tag update
    succeeds. *)
Definition scripted_externals (wait_result : option error) : Externals nat :=
  {| IgnoreConfigT := list string;
     IgnoreAWS := filter (λ kv, String.prefix "aws:" kv.1 = false);
     IgnoreConfig := λ cfg tags,
       match cfg with
       | None => tags
       | Some keys => filter (λ kv, kv.1 ∉ keys) tags
       end;
     waitOperation := λ _ _ w, (wait_result, w);
     UpdateTags := λ _ _ _ _ w, (None, w);
     Format_RFC3339 := λ _, "2022-11-08T12:00:00Z" |}.

Definition op1 : Operation := mkOperation (Some "op-1") (Some "Started").
Definition op2 : Operation := mkOperation (Some "op-2") (Some "Started").

(** An answer with [S w] operations, the first of which is [op1]. *)
Definition operations_of (w : nat) : list (option Operation) :=
  Some op1 :: replicate w (Some op2).

Definition test_instance : Instance :=
  {| Instance_Arn := Some "arn:aws:lightsail:us-east-1:1:Instance/1";
     Instance_BlueprintId := Some "amazon_linux";
     Instance_BundleId := Some "nano_1_0";
     Instance_CreatedAt := Some (mkTime 1667908800 0);
     Instance_Hardware := Some (mkInstanceHardware (Some 1%Z) (Some 0%Z));
     Instance_IpAddressType := Some "dualstack";
     Instance_Ipv6Addresses := [Some "2001:db8::1"];
     Instance_IsStaticIp := Some false;
     Instance_Location := Some (mkResourceLocation (Some "us-east-1a"));
     Instance_Name := Some "test1";
     Instance_PrivateIpAddress := Some "172.26.0.1";
     Instance_PublicIpAddress := Some "192.0.2.1";
     Instance_SshKeyName := Some "LightsailDefaultKeyPair";
     Instance_Tags := [mkTag (Some "Owner") (Some "ops");
                       mkTag (Some "Name") (Some "web")];
     Instance_Username := Some "ec2-user" |}.

Definition not_found : error :=
  AwsError "NotFoundException" "NotFoundException: The Instance does not exist".
Definition throttled : error :=
  AwsError "ThrottlingException" "ThrottlingException: Rate exceeded".
Definition timed_out : error :=
  ErrorString "timeout while waiting for state to become 'Succeeded'".

(** A control plane on which every call succeeds. *)
Definition healthy_conn : Conn nat :=
  scripted_conn
    (λ w, (Some (mkCreateInstancesOutput (operations_of w)), None))
    (λ _, (Some (mkGetInstanceOutput (Some test_instance)), None))
    (λ w, (Some (mkDeleteInstanceOutput (operations_of w)), None))
    (λ w, (Some (mkSetIpAddressTypeOutput (operations_of w)), None)).

(** A control plane whose mutating calls succeed with no operation. *)
Definition silent_conn : Conn nat :=
  scripted_conn
    (λ _, (Some (mkCreateInstancesOutput []), None))
    (λ _, (Some (mkGetInstanceOutput (Some test_instance)), None))
    (λ _, (Some (mkDeleteInstanceOutput []), None))
    (λ _, (Some (mkSetIpAddressTypeOutput []), None)).

(** A control plane on which GetInstance fails with the given error. *)
Definition failing_get_conn (err : error) : Conn nat :=
  scripted_conn
    (λ w, (Some (mkCreateInstancesOutput (operations_of w)), None))
    (λ _, (None, Some err))
    (λ w, (Some (mkDeleteInstanceOutput (operations_of w)), None))
    (λ w, (Some (mkSetIpAddressTypeOutput (operations_of w)), None)).

(** The planned resource of the specification's scenario. *)
Definition test_data : ResourceData :=
  {| rd_id := "test1";
     rd_state := {[ "ip_address_type" := VString "ipv4" ]};
     rd_planned :=
       {[ "name" := VString "test1";
          "availability_zone" := VString "us-east-1a";
          "blueprint_id" := VString "amazon_linux";
          "bundle_id" := VString "nano_1_0";
          "ip_address_type" := VString "dualstack" ]};
     rd_set := ∅ |}.

Definition test_state (w : nat) : State nat := mkState w test_data [] [].

Definition failing_wait : Externals nat := scripted_externals (Some timed_out).
Definition working_wait : Externals nat := scripted_externals None.

(** The handler-level default tags of the examples. *)
Definition default_tags : KeyValueTagsT := {[ "Owner" := Some "ops" ]}.

(** The resource-specific tags of the examples. *)
Definition resource_tags : KeyValueTagsT := {[ "Name" := Some "web" ]}.

Definition test_meta (E : Externals nat) (conn : Conn nat) : AWSClient :=
  mkAWSClient conn (Some default_tags) None.

(** A handler that is configured to ignore the tag key Owner. *)
Definition ignoring_meta : AWSClient :=
  @mkAWSClient nat working_wait healthy_conn (Some default_tags)
    (Some ["Owner"]).


(** The lookups of the examples: the attachment lb1,i1 exists and no
    other. *)
Definition scripted_checks : CheckExternals :=
  {| FindLoadBalancerAttachmentById := λ id,
       if String.eqb id "lb1,i1" then (Some "i1", None)
       else (None, Some (ErrorString "couldn't find resource"));
     tfresource_NotFound := λ err,
       match err with
       | Some (ErrorString text) => String.eqb text "couldn't find resource"
       | _ => false
       end;
     create_Error := λ id err,
       ErrorString ("checking Lightsail Load Balancer Attachment (" ++ id
                    ++ ") destroyed: " ++ Error err);
     Quote := λ s,
       String (ascii_of_N 34) (s ++ String (ascii_of_N 34) "") |}.

Definition attachment_resource (id : string) : ResourceState :=
  mkResourceState "aws_lightsail_lb_attachment" (Some (mkInstanceState id)).

(** The state of the acceptance test after its first step. *)
Definition attached_state : TerraformState :=
  mkTerraformState
    {[ "aws_lightsail_lb_attachment.test" := attachment_resource "lb1,i1";
       "aws_lightsail_instance.test" :=
         mkResourceState "aws_lightsail_instance"
           (Some (mkInstanceState "i1")) ]}.

(** A state whose attachment is gone from the control plane. *)
Definition detached_state : TerraformState :=
  mkTerraformState
    {[ "aws_lightsail_lb_attachment.test" := attachment_resource "lb2,i2";
       "aws_lightsail_instance.test" :=
         mkResourceState "aws_lightsail_instance"
           (Some (mkInstanceState "i1")) ]}.

(** An instance without IPv6 addresses. *)
Definition ipv4_instance : Instance :=
  {| Instance_Arn := Instance_Arn test_instance;
     Instance_BlueprintId := Instance_BlueprintId test_instance;
     Instance_BundleId := Instance_BundleId test_instance;
     Instance_CreatedAt := Instance_CreatedAt test_instance;
     Instance_Hardware := Instance_Hardware test_instance;
     Instance_IpAddressType := Some "ipv4";
     Instance_Ipv6Addresses := [];
     Instance_IsStaticIp := Instance_IsStaticIp test_instance;
     Instance_Location := Instance_Location test_instance;
     Instance_Name := Instance_Name test_instance;
     Instance_PrivateIpAddress := Instance_PrivateIpAddress test_instance;
     Instance_PublicIpAddress := Instance_PublicIpAddress test_instance;
     Instance_SshKeyName := Instance_SshKeyName test_instance;
     Instance_Tags := [];
     Instance_Username := Instance_Username test_instance |}.

(** An instance whose description lacks the hardware. *)
Definition bare_instance : Instance :=
  {| Instance_Arn := None;
     Instance_BlueprintId := None;
     Instance_BundleId := None;
     Instance_CreatedAt := Instance_CreatedAt test_instance;
     Instance_Hardware := None;
     Instance_IpAddressType := None;
     Instance_Ipv6Addresses := [];
     Instance_IsStaticIp := None;
     Instance_Location := Instance_Location test_instance;
     Instance_Name := Some "test1";
     Instance_PrivateIpAddress := None;
     Instance_PublicIpAddress := None;
     Instance_SshKeyName := None;
     Instance_Tags := [];
     Instance_Username := None |}.

(** A control plane whose GetInstance gives the given answer and whose
    other calls succeed. *)
Definition answering_conn (answer : option GetInstanceOutput * option error)
  : Conn nat :=
  scripted_conn
    (λ w, (Some (mkCreateInstancesOutput (operations_of w)), None))
    (λ _, answer)
    (λ w, (Some (mkDeleteInstanceOutput (operations_of w)), None))
    (λ w, (Some (mkSetIpAddressTypeOutput (operations_of w)), None)).

(** A control plane whose mutating calls fail. *)
Definition refusing_conn : Conn nat :=
  scripted_conn
    (λ _, (None, Some throttled))
    (λ _, (Some (mkGetInstanceOutput (Some test_instance)), None))
    (λ _, (None, Some throttled))
    (λ _, (None, Some throttled)).

(** Externals whose tag update fails. *)
Definition failing_tags : Externals nat :=
  {| IgnoreConfigT := list string;
     IgnoreAWS := λ tags, tags;
     IgnoreConfig := λ _ tags, tags;
     waitOperation := λ _ _ w, (None, w);
     UpdateTags := λ _ _ _ _ w, (Some throttled, w);
     Format_RFC3339 := λ _, "2022-11-08T12:00:00Z" |}.

(** A resource with a stale [ipv6_address] in its written attributes. *)
Definition stale_data : ResourceData :=
  {| rd_id := "test1";
     rd_state := ∅;
     rd_planned := rd_planned test_data;
     rd_set := {[ "ipv6_address" := VString "2001:db8::1" ]} |}.

(** A resource whose plan changes nothing. *)
Definition unchanged_data : ResourceData :=
  {| rd_id := "test1";
     rd_state := rd_planned test_data;
     rd_planned := rd_planned test_data;
     rd_set := ∅ |}.

(** A resource whose plan changes the tags only. *)
Definition retagged_data : ResourceData :=
  {| rd_id := "test1";
     rd_state := rd_planned test_data;
     rd_planned :=
       <["tags_all" := VMap {[ "Owner" := "ops" ]}]> (rd_planned test_data);
     rd_set := ∅ |}.

(** A resource whose plan changes the address type and the tags. *)
Definition changed_data : ResourceData :=
  {| rd_id := "test1";
     rd_state := rd_state test_data;
     rd_planned :=
       <["tags_all" := VMap {[ "Owner" := "ops" ]}]> (rd_planned test_data);
     rd_set := ∅ |}.

(** * Properties *)

Section HandlerProperties.

Context {World : Type} `{!Externals World}.
Implicit Types (meta : AWSClient) (s : State World) (d : ResourceData).

Ltac run_monad :=
  repeat (progress (
    unfold mbind, M_bind, mret, M_ret, get_d, d_SetId, log_Printf,
      conn_CreateInstances, conn_GetInstance, conn_DeleteInstance,
      conn_SetIpAddressType, do_waitOperation, do_UpdateTags, call, deref,
      panic;
    cbn [world rd log trace])).

(** ** The monad *)

Lemma M_bind_ret_l {A B : Type} (a : A) (f : A → M World B) s :
  (mret a ≫= f) s = f a s.
Proof. reflexivity. Qed.

Lemma M_bind_ret_r {A : Type} (m : M World A) s : (m ≫= mret) s = m s.
Proof. unfold mbind, M_bind. by destruct (m s). Qed.

Lemma M_bind_assoc {A B C : Type} (m : M World A) (f : A → M World B)
  (g : B → M World C) s :
  ((m ≫= f) ≫= g) s = (m ≫= λ a, f a ≫= g) s.
Proof. unfold mbind, M_bind. by destruct (m s). Qed.

(** A panic ends the computation in the state that it has reached. *)
Lemma M_bind_panic {A B : Type} msg (f : A → M World B) s :
  (panic msg ≫= f) s = Panic msg s.
Proof. reflexivity. Qed.

(** ** The resource data *)

Lemma has_type_ptr {A : Type} (t : ValueType) (f : A → value) (p : option A) :
  (∀ a, has_type t (f a) = true) → has_type t (ptr f p) = true.
Proof. intros Hf. destruct p as [a|]; [apply Hf | reflexivity]. Qed.

Lemma Set_typed d k v sch :
  schema_of k = Some sch → has_type (Type_ sch) v = true →
  Set_ d k v = (write k v d, None).
Proof. intros Hk Hv. unfold Set_. rewrite Hk, Hv. reflexivity. Qed.

Lemma d_Set_typed k v s sch :
  schema_of k = Some sch → has_type (Type_ sch) v = true →
  d_Set k v s
  = Normal None (mkState (world s) (write k v (rd s)) (log s) (trace s)).
Proof.
  intros Hk Hv. unfold d_Set. rewrite (Set_typed _ _ _ _ Hk Hv). reflexivity.
Qed.

Lemma d_Set_final k v s :
  world (final (d_Set k v s)) = world s ∧ log (final (d_Set k v s)) = log s
  ∧ trace (final (d_Set k v s)) = trace s.
Proof. unfold d_Set. destruct (Set_ (rd s) k v). auto. Qed.

Lemma Get_write_eq d k v sch :
  schema_of k = Some sch → has_type (Type_ sch) v = true → v ≠ VNil →
  Get (write k v d) k = v.
Proof.
  intros Hk Hv Hnil. unfold Get, write, read_level. cbn [rd_set].
  rewrite lookup_insert_eq, Hk, Hv. destruct v; congruence.
Qed.

(** [d.Get] of a key of the schema gives a value of the key's type. *)
Lemma Get_typed d k sch :
  schema_of k = Some sch →
  has_type (Type_ sch) (Get d k) = true ∧ Get d k ≠ VNil.
Proof.
  intros Hk.
  assert (Hzero : has_type (Type_ sch) (zero_of_key k) = true
                  ∧ zero_of_key k ≠ VNil).
  { unfold zero_of_key. rewrite Hk. by destruct (Type_ sch). }
  assert (Hlevel : ∀ m, has_type (Type_ sch) (read_level m k) = true
                        ∧ read_level m k ≠ VNil).
  { intros m. unfold read_level. rewrite Hk.
    destruct (m !! k) as [v|]; [|done].
    destruct v; try done;
      match goal with
      | |- context [has_type ?t ?v] => by destruct (has_type t v) eqn:Hv
      end. }
  unfold Get. by destruct (rd_set d !! k).
Qed.

Lemma Get_write_ne d k k' v : k ≠ k' → Get (write k v d) k' = Get d k'.
Proof.
  intros Hne. unfold Get, write, read_level. cbn [rd_set rd_planned].
  rewrite lookup_insert_ne by done. reflexivity.
Qed.

(** ** Read *)


(** ** Create *)

(** C1: when CreateInstances succeeds with at least one operation and the
    wait on it fails, [resourceInstanceCreate] logs the failure and returns
    whatever the follow-up [resourceInstanceRead] returns; the wait's error
    is not returned. *)
Theorem create_wait_failure_is_logged meta s resp op rest w1 err w2 :
  let conn := LightsailConn meta in
  let req := create_request meta (rd s) in
  let d' := SetId (rd s) (as_string (Get (rd s) "name")) in
  CreateInstances conn req (world s) = ((Some resp, None), w1) →
  CreateInstancesOutput_Operations resp = Some op :: rest →
  waitOperation conn (Operation_Id op) w1 = (Some err, w2) →
  resourceInstanceCreate meta s
  = resourceInstanceRead meta
      (mkState w2 d' (log s ++ [wait_failed_line d' err])
         (trace s ++ [CallCreateInstances req;
                      CallWaitOperation (Operation_Id op)])).
Proof.
  intros conn req d' Hcreate Hops Hwait.
  unfold resourceInstanceCreate. run_monad.
  fold conn req. rewrite Hcreate. run_monad.
  rewrite Hops. run_monad. rewrite Hwait. run_monad.
  rewrite <- app_assoc. reflexivity.
Qed.

(** ** Delete *)

(** C2: when DeleteInstance succeeds and the wait on its first operation
    fails, [resourceInstanceDelete] returns a non-nil error whose text holds
    the instance identifier and the text of the wait's error. *)
Theorem delete_wait_failure_fails meta s resp op rest w1 err w2 :
  let conn := LightsailConn meta in
  DeleteInstance conn (delete_request (rd s)) (world s)
    = ((Some resp, None), w1) →
  DeleteInstanceOutput_Operations resp = Some op :: rest →
  waitOperation conn (Operation_Id op) w1 = (Some err, w2) →
  resourceInstanceDelete meta s
  = Normal
      (Some (Errorf ("Error waiting for instance (" ++ Id (rd s)
                     ++ ") to become destroyed: " ++ Error err)))
      (mkState w2 (rd s) (log s)
         (trace s ++ [CallDeleteInstance (delete_request (rd s));
                      CallWaitOperation (Operation_Id op)])).
Proof.
  intros conn Hdelete Hops Hwait.
  unfold resourceInstanceDelete. run_monad.
  fold conn. rewrite Hdelete. run_monad.
  rewrite Hops. run_monad. rewrite Hwait. run_monad.
  rewrite <- app_assoc. reflexivity.
Qed.

Ltac set_typed :=
  match goal with
  | |- context [d_Set ?k ?v ?s] =>
      rewrite (d_Set_typed k v s _ eq_refl)
        by (try apply has_type_ptr; reflexivity)
  end.

Lemma read_success meta s resp i loc t hw w1 :
  GetInstance (LightsailConn meta) (get_request (rd s)) (world s)
    = ((Some resp, None), w1) →
  GetInstanceOutput_Instance resp = Some i →
  Instance_Location i = Some loc →
  Instance_CreatedAt i = Some t →
  Instance_Hardware i = Some hw →
  resourceInstanceRead meta s
  = Normal None
      (mkState w1 (write_all (instance_attributes meta i loc t hw) (rd s))
         (log s) (trace s ++ [CallGetInstance (get_request (rd s))])).
Proof.
  intros Hget Hi Hloc Ht Hhw.
  unfold resourceInstanceRead. run_monad. rewrite Hget. run_monad.
  rewrite Hi. run_monad. rewrite Hloc. run_monad.
  do 7 (set_typed; run_monad).
  rewrite Ht. run_monad. set_typed. run_monad.
  rewrite Hhw. run_monad. do 2 (set_typed; run_monad).
  unfold instance_attributes, write_all, instance_tags.
  destruct (Instance_Ipv6Addresses i) as [|a l]; run_monad;
    repeat (set_typed; run_monad); reflexivity.
Qed.

Lemma read_nil_response meta s w1 :
  GetInstance (LightsailConn meta) (get_request (rd s)) (world s)
    = ((None, None), w1) →
  ∃ line,
    resourceInstanceRead meta s
    = Normal None
        (mkState w1 (SetId (rd s) "") (log s ++ [line])
           (trace s ++ [CallGetInstance (get_request (rd s))])).
Proof.
  intros Hget. unfold resourceInstanceRead. run_monad. rewrite Hget.
  eexists. reflexivity.
Qed.

(** A response that lacks the instance, its location, its creation time or
    its hardware makes the read panic. *)
Lemma read_panics meta s resp w1 :
  GetInstance (LightsailConn meta) (get_request (rd s)) (world s)
    = ((Some resp, None), w1) →
  (∀ i, GetInstanceOutput_Instance resp = Some i →
        Instance_Location i = None ∨ Instance_CreatedAt i = None
        ∨ Instance_Hardware i = None) →
  ∃ s', resourceInstanceRead meta s = Panic nil_dereference s'.
Proof.
  intros Hget Hnil.
  unfold resourceInstanceRead. run_monad. rewrite Hget. run_monad.
  destruct (GetInstanceOutput_Instance resp) as [i|]; run_monad;
    [|eexists; reflexivity].
  specialize (Hnil i eq_refl).
  destruct (Instance_Location i) as [loc|]; run_monad;
    [|eexists; reflexivity].
  do 7 (set_typed; run_monad).
  destruct (Instance_CreatedAt i) as [t|]; run_monad;
    [|eexists; reflexivity].
  set_typed; run_monad.
  destruct (Instance_Hardware i) as [hw|]; run_monad;
    [|eexists; reflexivity].
  destruct Hnil as [|[|]]; discriminate.
Qed.

Lemma write_all_fields l d :
  write_all l d
  = mkResourceData (rd_id d) (rd_state d) (rd_planned d)
      (fold_left (λ m kv, <[kv.1 := kv.2]> m) l (rd_set d)).
Proof.
  revert d. induction l as [|kv l IH]; intros d.
  - destruct d. reflexivity.
  - cbn. unfold write_all in IH. rewrite IH. reflexivity.
Qed.

Lemma fold_insert_union (l : list (string * value)) (m : gmap string value) :
  fold_left (λ m kv, <[kv.1 := kv.2]> m) l m = list_to_map (reverse l) ∪ m.
Proof.
  revert m. induction l as [|[k v] l IH]; intros m.
  - cbn. by rewrite (left_id_L ∅ (∪)).
  - cbn [fold_left]. rewrite IH, reverse_cons, list_to_map_app.
    cbn [list_to_map foldr fst snd].
    by rewrite <- (assoc_L (∪)), <- insert_union_l, (left_id_L ∅ (∪)).
Qed.

Lemma write_all_idempotent l d : write_all l (write_all l d) = write_all l d.
Proof.
  rewrite !write_all_fields. cbn. f_equal.
  rewrite !fold_insert_union. rewrite (assoc_L (∪)).
  by rewrite (idemp_L (∪)).
Qed.

Lemma read_error meta s resp err w1 :
  GetInstance (LightsailConn meta) (get_request (rd s)) (world s)
    = ((resp, Some err), w1) →
  resourceInstanceRead meta s
  = if is_not_found err
    then Normal None
           (mkState w1 (SetId (rd s) "") (log s ++ [not_found_line (rd s)])
              (trace s ++ [CallGetInstance (get_request (rd s))]))
    else Normal (Some err)
           (mkState w1 (rd s) (log s)
              (trace s ++ [CallGetInstance (get_request (rd s))])).
Proof.
  intros Hget. unfold resourceInstanceRead. run_monad. rewrite Hget. cbn.
  destruct err as [code text| |]; cbn; try reflexivity.
  destruct (String.eqb code "NotFoundException"); reflexivity.
Qed.

(** C8: against a GetInstance that always gives the same answer, reading
    twice in a row gives the caller what reading once gives: the same
    returned value (or panic) and the same resource data. *)
Theorem read_idempotent meta s r :
  (∀ req w, (GetInstance (LightsailConn meta) req w).1 = r) →
  observe ((resourceInstanceRead meta;; resourceInstanceRead meta) s)
  = observe (resourceInstanceRead meta s).
Proof.
  intros Hfix.
  assert (Hcall : ∀ s0, ∃ w,
    GetInstance (LightsailConn meta) (get_request (rd s0)) (world s0)
    = (r, w)).
  { intros s0. specialize (Hfix (get_request (rd s0)) (world s0)).
    destruct (GetInstance _ _ _) as [r0 w]. cbn in Hfix. subst. eauto. }
  unfold mbind, M_bind.
  destruct (Hcall s) as [w1 E1]. destruct r as [resp [err|]].
  - rewrite (read_error _ _ _ _ _ E1).
    destruct (is_not_found err) eqn:Hnf.
    + match goal with |- context [Normal None ?s1] =>
        destruct (Hcall s1) as [w2 E2];
        rewrite (read_error _ _ _ _ _ E2), Hnf end.
      reflexivity.
    + match goal with |- context [Normal (Some err) ?s1] =>
        destruct (Hcall s1) as [w2 E2];
        rewrite (read_error _ _ _ _ _ E2), Hnf end.
      reflexivity.
  - destruct resp as [resp|].
    + destruct (GetInstanceOutput_Instance resp) as [i|] eqn:Hi.
      2: { destruct (read_panics _ _ _ _ E1) as [s' ->]; [|reflexivity].
           intros i. rewrite Hi. discriminate. }
      destruct (Instance_Location i) as [loc|] eqn:Hloc.
      2: { destruct (read_panics _ _ _ _ E1) as [s' ->]; [|reflexivity].
           intros i'. rewrite Hi. intros [= <-]. auto. }
      destruct (Instance_CreatedAt i) as [t|] eqn:Ht.
      2: { destruct (read_panics _ _ _ _ E1) as [s' ->]; [|reflexivity].
           intros i'. rewrite Hi. intros [= <-]. auto. }
      destruct (Instance_Hardware i) as [hw|] eqn:Hhw.
      2: { destruct (read_panics _ _ _ _ E1) as [s' ->]; [|reflexivity].
           intros i'. rewrite Hi. intros [= <-]. auto. }
      rewrite (read_success _ _ _ _ _ _ _ _ E1 Hi Hloc Ht Hhw).
      match goal with |- context [Normal None ?s1] =>
        destruct (Hcall s1) as [w2 E2];
        rewrite (read_success _ _ _ _ _ _ _ _ E2 Hi Hloc Ht Hhw) end.
      cbn [observe rd]. by rewrite write_all_idempotent.
    + destruct (read_nil_response _ _ _ E1) as [line ->].
      match goal with |- context [Normal None ?s1] =>
        destruct (Hcall s1) as [w2 E2];
        destruct (read_nil_response _ _ _ E2) as [line2 ->] end.
      reflexivity.
Qed.

(** The two tag attributes after a read that succeeds. *)
Lemma read_success_tags meta d i loc t hw :
  let d' := write_all (instance_attributes meta i loc t hw) d in
  Get d' "tags_all" = VMap (Map (instance_tags meta i))
  ∧ Get d' "tags"
    = VMap (Map (RemoveDefaultConfig (DefaultTagsConfig meta)
                   (instance_tags meta i))).
Proof.
  unfold instance_attributes, write_all.
  rewrite !fold_left_app. cbn [fold_left fst snd]. split.
  - by rewrite (Get_write_eq _ "tags_all" _ _ eq_refl).
  - rewrite Get_write_ne by done.
    by rewrite (Get_write_eq _ "tags" _ _ eq_refl).
Qed.

Lemma Map_lookup (tags : KeyValueTagsT) k :
  Map tags !! k = StringValue <$> tags !! k.
Proof. unfold Map. apply lookup_fmap. Qed.

Lemma RemoveDefaultConfig_default (dt tags : KeyValueTagsT) k v :
  dt !! k = Some v → tags !! k = Some v →
  RemoveDefaultConfig (Some dt) tags !! k = None.
Proof.
  intros Hdt Htags. unfold RemoveDefaultConfig.
  apply map_lookup_filter_None. right. intros v' Hv' Hne. cbn in Hne.
  congruence.
Qed.

Lemma RemoveDefaultConfig_other (dtc : option KeyValueTagsT)
  (tags : KeyValueTagsT) k v :
  tags !! k = Some v → (∀ dt, dtc = Some dt → dt !! k ≠ Some v) →
  RemoveDefaultConfig dtc tags !! k = Some v.
Proof.
  intros Htags Hdt. destruct dtc as [dt|]; cbn; [|done].
  apply map_lookup_filter_Some. split; [done|]. cbn. by apply Hdt.
Qed.

(** C6: in a read that succeeds, a tag that comes from the handler-level
    defaults alone (its key is not among the resource-specific tags, and the
    response carries the merged tag set) and that the ignore filters leave
    in place is in the [tags_all] attribute and is not in the [tags]
    attribute. *)
Theorem default_only_tag_in_tags_all_only
  meta s resp i loc t hw w1 (dt rt : KeyValueTagsT) k v :
  GetInstance (LightsailConn meta) (get_request (rd s)) (world s)
    = ((Some resp, None), w1) →
  GetInstanceOutput_Instance resp = Some i →
  Instance_Location i = Some loc →
  Instance_CreatedAt i = Some t →
  Instance_Hardware i = Some hw →
  DefaultTagsConfig meta = Some dt →
  KeyValueTags (Instance_Tags i) = MergeTags (Some dt) rt →
  dt !! k = Some v →
  rt !! k = None →
  IgnoreConfig (IgnoreTagsConfig meta)
    (IgnoreAWS (KeyValueTags (Instance_Tags i))) !! k
  = KeyValueTags (Instance_Tags i) !! k →
  ∃ s',
    resourceInstanceRead meta s = Normal None s'
    ∧ as_map (Get (rd s') "tags_all") !! k = Some (StringValue v)
    ∧ as_map (Get (rd s') "tags") !! k = None.
Proof.
  intros Hget Hi Hloc Ht Hhw Hdtc Hmerged Hdt Hrt Hkept.
  rewrite (read_success _ _ _ _ _ _ _ _ Hget Hi Hloc Ht Hhw).
  eexists. split; [reflexivity|]. cbn [rd].
  destruct (read_success_tags meta (rd s) i loc t hw) as [-> ->].
  fold (instance_tags meta i) in Hkept.
  assert (Htag : instance_tags meta i !! k = Some v).
  { rewrite Hkept, Hmerged. cbn.
    by rewrite lookup_union_r. }
  cbn [as_map]. split.
  - by rewrite Map_lookup, Htag.
  - rewrite Map_lookup, Hdtc.
    by rewrite (RemoveDefaultConfig_default _ _ _ _ Hdt Htag).
Qed.

(** A tag that the ignore filters drop is in neither attribute. *)
Lemma ignored_tag_in_neither meta s resp i loc t hw w1 k :
  GetInstance (LightsailConn meta) (get_request (rd s)) (world s)
    = ((Some resp, None), w1) →
  GetInstanceOutput_Instance resp = Some i →
  Instance_Location i = Some loc →
  Instance_CreatedAt i = Some t →
  Instance_Hardware i = Some hw →
  IgnoreConfig (IgnoreTagsConfig meta)
    (IgnoreAWS (KeyValueTags (Instance_Tags i))) !! k = None →
  ∃ s',
    resourceInstanceRead meta s = Normal None s'
    ∧ as_map (Get (rd s') "tags_all") !! k = None
    ∧ as_map (Get (rd s') "tags") !! k = None.
Proof.
  intros Hget Hi Hloc Ht Hhw Hdropped.
  rewrite (read_success _ _ _ _ _ _ _ _ Hget Hi Hloc Ht Hhw).
  eexists. split; [reflexivity|]. cbn [rd].
  destruct (read_success_tags meta (rd s) i loc t hw) as [-> ->].
  fold (instance_tags meta i) in Hdropped. cbn [as_map].
  rewrite !Map_lookup, Hdropped. split; [done|].
  destruct (DefaultTagsConfig meta) as [dt|]; cbn.
  - by rewrite map_lookup_filter, Hdropped.
  - by rewrite Hdropped.
Qed.

(** ** The operations that the handlers wait on *)

Lemma no_wait_ret {A : Type} (a : A) : no_wait (mret a : M World A).
Proof. intros s. reflexivity. Qed.

Lemma no_wait_panic {A : Type} msg : no_wait (panic msg : M World A).
Proof. intros s. reflexivity. Qed.

Lemma no_wait_bind {A B : Type} (m : M World A) (f : A → M World B) :
  no_wait m → (∀ a, no_wait (f a)) → no_wait (m ≫= f).
Proof.
  intros Hm Hf s. unfold mbind, M_bind. specialize (Hm s).
  destruct (m s) as [a s'|msg s']; cbn in *.
  - by rewrite Hf.
  - done.
Qed.

Lemma no_wait_get_d : no_wait (get_d : M World _).
Proof. intros s. reflexivity. Qed.

Lemma no_wait_deref {A : Type} (p : option A) :
  no_wait (deref p : M World A).
Proof. intros s. by destruct p. Qed.

Lemma no_wait_d_SetId v : no_wait (d_SetId v : M World _).
Proof. intros s. reflexivity. Qed.

Lemma no_wait_log_Printf line : no_wait (log_Printf line : M World _).
Proof. intros s. reflexivity. Qed.

Lemma no_wait_d_Set k v : no_wait (d_Set k v : M World _).
Proof. intros s. by destruct (d_Set_final k v s) as (_ & _ & ->). Qed.

Lemma no_wait_call {A : Type} (c : Call) (f : World → A * World) :
  (∀ oid, c ≠ CallWaitOperation oid) → no_wait (call c f).
Proof.
  intros Hc s. unfold call. destruct (f (world s)) as [a w]. cbn.
  unfold waited. rewrite omap_app. cbn.
  destruct c; try by rewrite app_nil_r. by destruct (Hc oid).
Qed.

Ltac no_wait_step :=
  first
    [ apply no_wait_bind; [|intros]
    | apply no_wait_ret | apply no_wait_panic | apply no_wait_get_d
    | apply no_wait_deref | apply no_wait_d_SetId | apply no_wait_log_Printf
    | apply no_wait_d_Set | apply no_wait_call; discriminate
    | match goal with
      | |- no_wait (match ?x with _ => _ end) => destruct x
      | |- no_wait (if ?x then _ else _) => destruct x
      | |- no_wait (let (_, _) := ?x in _) => destruct x
      end ].

Lemma no_wait_read meta : no_wait (resourceInstanceRead meta).
Proof.
  unfold resourceInstanceRead, conn_GetInstance. repeat no_wait_step.
Qed.

Lemma no_wait_update_tags_all conn : no_wait (update_tags_all conn).
Proof.
  unfold update_tags_all, do_UpdateTags. repeat no_wait_step.
Qed.

(** A handler whose mutating call succeeds goes on with the first operation
    of the answer, if there is one. *)
Lemma handler_after_call c meta s ops w1 :
  mutation_response c meta s = Some (Some ops, None, w1) →
  handler c meta s
  = match ops with
    | op :: _ => first_wait c meta op (called (mutation_call c meta (rd s)) w1 s)
    | [] =>
        match c with
        | MutDelete => Panic index_out_of_range
        | _ => Normal (Some no_operations)
        end (called (mutation_call c meta (rd s)) w1 s)
    end.
Proof.
  unfold mutation_response, handler, called, mutation_call. destruct c.
  - destruct (CreateInstances _ _ _) as [[[resp|] err] w] eqn:Hcall;
      intros [= <- -> ->].
    unfold resourceInstanceCreate, first_wait, create_wait. run_monad.
    rewrite Hcall. run_monad.
    by destruct (CreateInstancesOutput_Operations resp).
  - destruct (DeleteInstance _ _ _) as [[[resp|] err] w] eqn:Hcall;
      intros [= <- -> ->].
    unfold resourceInstanceDelete, first_wait, delete_wait. run_monad.
    rewrite Hcall. run_monad.
    by destruct (DeleteInstanceOutput_Operations resp).
  - destruct (HasChange (rd s) "ip_address_type") eqn:Hchange; [|done].
    destruct (SetIpAddressType _ _ _) as [[[resp|] err] w] eqn:Hcall;
      intros [= <- -> ->].
    unfold resourceInstanceUpdate, update_ip_address_type, first_wait,
      update_wait. run_monad.
    rewrite Hchange. run_monad. rewrite Hcall. run_monad.
    destruct (SetIpAddressTypeOutput_Operations resp) as [|[op|] ?];
      run_monad; reflexivity.
Qed.

Lemma waited_called c meta s w1 :
  waited (trace (called (mutation_call c meta (rd s)) w1 s))
  = waited (trace s).
Proof.
  unfold called, waited. cbn. rewrite omap_app.
  destruct c; cbn; by rewrite app_nil_r.
Qed.

Lemma first_wait_waited c meta op s :
  waited (trace (final (first_wait c meta (Some op) s)))
  = waited (trace s) ++ [Operation_Id op].
Proof.
  destruct c; cbn [first_wait].
  - unfold create_wait. run_monad.
    destruct (waitOperation _ _ _) as [[err|] w']; run_monad;
      rewrite no_wait_read; cbn; unfold waited; by rewrite omap_app.
  - unfold delete_wait. run_monad.
    destruct (waitOperation _ _ _) as [[err|] w']; run_monad;
      cbn; unfold waited; by rewrite omap_app.
  - unfold update_wait. run_monad.
    destruct (waitOperation _ _ _) as [[err|] w']; run_monad.
    + cbn. unfold waited. by rewrite omap_app.
    + match goal with |- context [update_tags_all ?conn ?s1] =>
        pose proof (no_wait_update_tags_all conn s1) as Htags;
        destruct (update_tags_all conn s1) as [[err|] s2|msg s2]
      end; cbn in Htags |- *; try rewrite no_wait_read; rewrite Htags;
        unfold waited; by rewrite omap_app.
Qed.

(** C4: when the answer to the mutating call of a handler (create, delete,
    set-ip-address-type) carries operations, the handler waits on the first
    of them and on no other, and its outcome does not depend on the
    operations after the first: a run that differs only in those ends the
    same. *)
Theorem first_operation_only c meta s op rest w1 :
  mutation_response c meta s = Some (Some (Some op :: rest), None, w1) →
  waited (trace (final (handler c meta s)))
  = waited (trace s) ++ [Operation_Id op]
  ∧ ∀ s' rest',
      rd s' = rd s → log s' = log s → trace s' = trace s →
      mutation_response c meta s'
      = Some (Some (Some op :: rest'), None, w1) →
      handler c meta s' = handler c meta s.
Proof.
  intros Hresp. rewrite (handler_after_call _ _ _ _ _ Hresp). split.
  - by rewrite first_wait_waited, waited_called.
  - intros s' rest' Hrd Hlog Htrace Hresp'.
    rewrite (handler_after_call _ _ _ _ _ Hresp').
    unfold called. by rewrite Hrd, Hlog, Htrace.
Qed.

(** C9: when the mutating call succeeds with an empty list of operations,
    [resourceInstanceDelete] panics on the index, where the create and the
    update handlers return an error; with a first operation in the list,
    the delete handler does not panic on the index. *)
Theorem delete_needs_an_operation c meta s ops w1 :
  mutation_response c meta s = Some (Some ops, None, w1) →
  let s1 := called (mutation_call c meta (rd s)) w1 s in
  (ops = [] →
     handler c meta s
     = match c with
       | MutDelete => Panic index_out_of_range s1
       | _ => Normal (Some no_operations) s1
       end)
  ∧ (c = MutDelete → ops ≠ [] →
     ∀ s', handler c meta s ≠ Panic index_out_of_range s').
Proof.
  intros Hresp s1. rewrite (handler_after_call _ _ _ _ _ Hresp). split.
  - intros ->. by destruct c.
  - intros -> Hops s'. destruct ops as [|op ops]; [done|]. fold s1.
    cbn [first_wait]. unfold delete_wait. run_monad.
    destruct op as [op|]; [|done]. run_monad.
    by destruct (waitOperation _ _ _) as [[err|] w'].
Qed.

(** ** What a read writes and what it leaves alone *)

Lemma Get_write_ptr {A : Type} d k (f : A → value) (p : option A) sch :
  schema_of k = Some sch →
  (∀ a, has_type (Type_ sch) (f a) = true ∧ f a ≠ VNil) →
  Get (write k (ptr f p) d) k
  = match p with
    | Some a => f a
    | None => zero_value (Type_ sch)
    end.
Proof.
  intros Hk Hf. destruct p as [a|]; cbn [ptr].
  - destruct (Hf a). by apply (Get_write_eq _ _ _ sch).
  - unfold Get, write, read_level, zero_of_key. cbn [rd_set].
    by rewrite lookup_insert_eq, Hk.
Qed.

Ltac through_writes := repeat (rewrite Get_write_ne by done).

Ltac read_written :=
  through_writes;
  match goal with
  | |- Get (write ?k (ptr ?f ?p) ?d) ?k = _ =>
      rewrite (Get_write_ptr d k f p _ eq_refl) by (intros; by split);
      by destruct p
  | |- Get (write ?k ?v ?d) ?k = _ =>
      by rewrite (Get_write_eq d k v _ eq_refl)
  end.

(** In every outcome of a read, panics included, the only outgoing call is
    the one GetInstance for the current identifier, and the prior state, the
    planned values and the attribute [user_data] (which the API does not
    give back) are as they were. *)
Theorem read_footprint meta s :
  let s' := final (resourceInstanceRead meta s) in
  trace s' = trace s ++ [CallGetInstance (get_request (rd s))]
  ∧ rd_state (rd s') = rd_state (rd s)
  ∧ rd_planned (rd s') = rd_planned (rd s)
  ∧ Get (rd s') "user_data" = Get (rd s) "user_data".
Proof.
  cbv zeta. unfold resourceInstanceRead. run_monad.
  destruct (GetInstance _ _ _) as [[resp err] w1]. run_monad.
  destruct err as [err|].
  { destruct (as_awserr err) as [code|];
      [destruct (String.eqb code "NotFoundException")|]; by cbn. }
  destruct resp as [resp|]; run_monad; [|by cbn].
  destruct (GetInstanceOutput_Instance resp) as [i|]; run_monad; [|by cbn].
  destruct (Instance_Location i) as [loc|]; run_monad; [|by cbn].
  do 7 (set_typed; run_monad).
  destruct (Instance_CreatedAt i) as [t|]; run_monad;
    [|cbn [final rd trace]; repeat split; by through_writes].
  set_typed; run_monad.
  destruct (Instance_Hardware i) as [hw|]; run_monad;
    [|cbn [final rd trace]; repeat split; by through_writes].
  do 2 (set_typed; run_monad).
  destruct (Instance_Ipv6Addresses i) as [|a l]; run_monad;
    repeat (set_typed; run_monad);
    cbn [final rd trace]; repeat split; by through_writes.
Qed.

(** [d.Set] never fails in a read: an error that a read returns is the error
    that GetInstance returned, and the resource data is then untouched. *)
Theorem read_fails_only_with_api_error meta s err s' :
  resourceInstanceRead meta s = Normal (Some err) s' →
  (GetInstance (LightsailConn meta) (get_request (rd s)) (world s)).1.2
  = Some err
  ∧ rd s' = rd s.
Proof.
  destruct (GetInstance (LightsailConn meta) (get_request (rd s)) (world s))
    as [[resp [err0|]] w1] eqn:Hget; cbn.
  - rewrite (read_error _ _ _ _ _ Hget).
    destruct (is_not_found err0); [discriminate|]. by intros [= -> <-].
  - destruct resp as [resp|].
    + destruct (GetInstanceOutput_Instance resp) as [i|] eqn:Hi.
      2: { destruct (read_panics _ _ _ _ Hget) as [s0 ->]; [|discriminate].
           intros i. rewrite Hi. discriminate. }
      destruct (Instance_Location i) as [loc|] eqn:Hloc.
      2: { destruct (read_panics _ _ _ _ Hget) as [s0 ->]; [|discriminate].
           intros i'. rewrite Hi. intros [= <-]. auto. }
      destruct (Instance_CreatedAt i) as [t|] eqn:Ht.
      2: { destruct (read_panics _ _ _ _ Hget) as [s0 ->]; [|discriminate].
           intros i'. rewrite Hi. intros [= <-]. auto. }
      destruct (Instance_Hardware i) as [hw|] eqn:Hhw.
      2: { destruct (read_panics _ _ _ _ Hget) as [s0 ->]; [|discriminate].
           intros i'. rewrite Hi. intros [= <-]. auto. }
      rewrite (read_success _ _ _ _ _ _ _ _ Hget Hi Hloc Ht Hhw).
      discriminate.
    + destruct (read_nil_response _ _ _ Hget) as [line ->]. discriminate.
Qed.

(** After a read of a complete instance the attributes are those of the
    response, a nil field reading as the zero value of its type; the
    identifier is kept. *)
Theorem read_reflects_instance meta s resp i loc t hw w1 :
  GetInstance (LightsailConn meta) (get_request (rd s)) (world s)
    = ((Some resp, None), w1) →
  GetInstanceOutput_Instance resp = Some i →
  Instance_Location i = Some loc →
  Instance_CreatedAt i = Some t →
  Instance_Hardware i = Some hw →
  ∃ s',
    resourceInstanceRead meta s = Normal None s'
    ∧ Id (rd s') = Id (rd s)
    ∧ Get (rd s') "name" = VString (StringValue (Instance_Name i))
    ∧ Get (rd s') "availability_zone"
      = VString (StringValue (ResourceLocation_AvailabilityZone loc))
    ∧ Get (rd s') "blueprint_id"
      = VString (StringValue (Instance_BlueprintId i))
    ∧ Get (rd s') "bundle_id" = VString (StringValue (Instance_BundleId i))
    ∧ Get (rd s') "key_pair_name"
      = VString (StringValue (Instance_SshKeyName i))
    ∧ Get (rd s') "arn" = VString (StringValue (Instance_Arn i))
    ∧ Get (rd s') "username" = VString (StringValue (Instance_Username i))
    ∧ Get (rd s') "created_at" = VString (Format_RFC3339 t)
    ∧ Get (rd s') "cpu_count"
      = VInt (default 0%Z (InstanceHardware_CpuCount hw))
    ∧ Get (rd s') "ram_size"
      = VFloat (default 0%Z (InstanceHardware_RamSizeInGb hw))
    ∧ Get (rd s') "ipv6_addresses"
      = VList (StringValueSlice (Instance_Ipv6Addresses i))
    ∧ Get (rd s') "ip_address_type"
      = VString (StringValue (Instance_IpAddressType i))
    ∧ Get (rd s') "is_static_ip"
      = VBool (default false (Instance_IsStaticIp i))
    ∧ Get (rd s') "private_ip_address"
      = VString (StringValue (Instance_PrivateIpAddress i))
    ∧ Get (rd s') "public_ip_address"
      = VString (StringValue (Instance_PublicIpAddress i)).
Proof.
  intros Hget Hi Hloc Ht Hhw.
  rewrite (read_success _ _ _ _ _ _ _ _ Hget Hi Hloc Ht Hhw).
  eexists. split; [reflexivity|]. cbn [rd].
  unfold instance_attributes, write_all. rewrite !fold_left_app.
  destruct (Instance_Ipv6Addresses i) as [|a l]; cbn [fold_left fst snd];
    (split; [reflexivity|]); repeat split; read_written.
Qed.

(** A read of an instance without IPv6 addresses does not write
    [ipv6_address]: the attribute keeps the value that it had. *)
Theorem read_keeps_stale_ipv6_address meta s resp i loc t hw w1 :
  GetInstance (LightsailConn meta) (get_request (rd s)) (world s)
    = ((Some resp, None), w1) →
  GetInstanceOutput_Instance resp = Some i →
  Instance_Location i = Some loc →
  Instance_CreatedAt i = Some t →
  Instance_Hardware i = Some hw →
  Instance_Ipv6Addresses i = [] →
  ∃ s',
    resourceInstanceRead meta s = Normal None s'
    ∧ Get (rd s') "ipv6_addresses" = VList []
    ∧ Get (rd s') "ipv6_address" = Get (rd s) "ipv6_address".
Proof.
  intros Hget Hi Hloc Ht Hhw Hv6.
  rewrite (read_success _ _ _ _ _ _ _ _ Hget Hi Hloc Ht Hhw).
  eexists. split; [reflexivity|]. cbn [rd].
  unfold instance_attributes, write_all. rewrite !fold_left_app, Hv6.
  cbn [fold_left fst snd]. split.
  - read_written.
  - by through_writes.
Qed.

(** ** Errors of the mutating calls *)

(** An error of the mutating call of a handler (create, delete, update) is
    returned as it is, and nothing else happens: no wait, no read, no log
    line, and the resource data, the identifier included, is untouched. *)
Theorem mutation_error_is_returned c meta s resp err w1 :
  mutation_response c meta s = Some (resp, Some err, w1) →
  handler c meta s
  = Normal (Some err) (called (mutation_call c meta (rd s)) w1 s).
Proof.
  unfold mutation_response, handler, called, mutation_call. destruct c.
  - destruct (CreateInstances _ _ _) as [[resp0 err0] w] eqn:Hcall.
    intros [= _ -> ->].
    unfold resourceInstanceCreate. run_monad. by rewrite Hcall.
  - destruct (DeleteInstance _ _ _) as [[resp0 err0] w] eqn:Hcall.
    intros [= _ -> ->].
    unfold resourceInstanceDelete. run_monad. by rewrite Hcall.
  - destruct (HasChange (rd s) "ip_address_type") eqn:Hchange; [|done].
    destruct (SetIpAddressType _ _ _) as [[resp0 err0] w] eqn:Hcall.
    intros [= _ -> ->].
    unfold resourceInstanceUpdate, update_ip_address_type. run_monad.
    rewrite Hchange. run_monad. by rewrite Hcall.
Qed.

(** ** Create *)

(** When the read that follows a creation finds no instance, the create
    handler returns nil with the identifier cleared, whether the wait had
    failed or not. *)
Theorem create_then_not_found meta s resp op rest w1 werr w2 resp' text w3 :
  let conn := LightsailConn meta in
  let name := as_string (Get (rd s) "name") in
  CreateInstances conn (create_request meta (rd s)) (world s)
    = ((Some resp, None), w1) →
  CreateInstancesOutput_Operations resp = Some op :: rest →
  waitOperation conn (Operation_Id op) w1 = (werr, w2) →
  GetInstance conn (mkGetInstanceInput (Some name)) w2
    = ((resp', Some (AwsError "NotFoundException" text)), w3) →
  ∃ s',
    resourceInstanceCreate meta s = Normal None s'
    ∧ Id (rd s') = ""
    ∧ world s' = w3
    ∧ trace s'
      = trace s ++ [CallCreateInstances (create_request meta (rd s));
                    CallWaitOperation (Operation_Id op);
                    CallGetInstance (mkGetInstanceInput (Some name))].
Proof.
  intros conn name Hcreate Hops Hwait Hget.
  unfold resourceInstanceCreate. run_monad.
  fold conn. rewrite Hcreate. run_monad.
  rewrite Hops. run_monad. rewrite Hwait. run_monad.
  destruct werr as [werr|]; run_monad;
    (erewrite read_error; [|exact Hget]); cbn [is_not_found String.eqb];
    eexists; (split; [reflexivity|]); cbn [rd world trace];
    repeat split; by rewrite <- !app_assoc.
Qed.

(** The optional fields of the request of a creation are sent exactly when
    the configured value is not empty, and then with that value. *)
Theorem create_request_optional_fields meta d :
  let sent k := if String.eqb (as_string (Get d k)) ""
                then None else Some (as_string (Get d k)) in
  CreateInstancesInput_KeyPairName (create_request meta d)
  = sent "key_pair_name"
  ∧ CreateInstancesInput_UserData (create_request meta d) = sent "user_data"
  ∧ CreateInstancesInput_IpAddressType (create_request meta d)
    = sent "ip_address_type"
  ∧ CreateInstancesInput_InstanceNames (create_request meta d)
    = [Some (as_string (Get d "name"))].
Proof.
  assert (Hopt : ∀ k sch, schema_of k = Some sch → Type_ sch = TypeString →
            optional_string d k
            = if String.eqb (as_string (Get d k)) ""
              then None else Some (as_string (Get d k))).
  { intros k sch Hk Hty. unfold optional_string, GetOk, zero_of_key.
    destruct (Get_typed d k sch Hk) as [Htyped Hnil].
    rewrite Hk, Hty in *. cbn [zero_value].
    destruct (Get d k) as [|str| | | | |]; try done.
    cbn [value_eqb as_string negb]. by destruct (String.eqb str ""). }
  cbv zeta. unfold create_request.
  cbn [CreateInstancesInput_KeyPairName CreateInstancesInput_UserData
       CreateInstancesInput_IpAddressType CreateInstancesInput_InstanceNames].
  repeat split; by eapply Hopt.
Qed.

(** ** Update *)

(** When neither [ip_address_type] nor [tags_all] has changed, an update is
    a read: no mutating call is made. *)
Theorem update_without_change_is_read meta s :
  HasChange (rd s) "ip_address_type" = false →
  HasChange (rd s) "tags_all" = false →
  resourceInstanceUpdate meta s = resourceInstanceRead meta s.
Proof.
  intros Hip Htags.
  unfold resourceInstanceUpdate, update_ip_address_type, update_tags_all.
  run_monad. rewrite Hip. run_monad. rewrite Htags. run_monad.
  by destruct s.
Qed.

(** A failure of the wait in an update is returned as it is (not logged as
    in a creation, not rewritten as in a deletion), and the update stops:
    no tag update and no read follow. *)
Theorem update_wait_failure_is_returned meta s op rest w1 err w2 :
  mutation_response MutSetIpAddressType meta s
    = Some (Some (Some op :: rest), None, w1) →
  waitOperation (LightsailConn meta) (Operation_Id op) w1 = (Some err, w2) →
  resourceInstanceUpdate meta s
  = Normal (Some err)
      (mkState w2 (rd s) (log s)
         (trace s ++ [CallSetIpAddressType (set_ip_request (rd s));
                      CallWaitOperation (Operation_Id op)])).
Proof.
  intros Hresp Hwait.
  change (resourceInstanceUpdate meta s)
    with (handler MutSetIpAddressType meta s).
  rewrite (handler_after_call _ _ _ _ _ Hresp).
  cbn [first_wait]. unfold update_wait, called. run_monad.
  rewrite Hwait. run_monad. by rewrite <- app_assoc.
Qed.

(** A failure of the tag update is returned with the identifier in its
    text, and the read does not follow. *)
Theorem update_tags_failure meta s err w1 :
  let d := rd s in
  HasChange d "ip_address_type" = false →
  HasChange d "tags_all" = true →
  UpdateTags (LightsailConn meta) (Id d) (GetChange d "tags_all").1
    (GetChange d "tags_all").2 (world s) = (Some err, w1) →
  resourceInstanceUpdate meta s
  = Normal
      (Some (Errorf ("error updating Lightsail Instance (" ++ Id d
                     ++ ") tags: " ++ Error err)))
      (mkState w1 d (log s)
         (trace s ++ [CallUpdateTags (Id d) (GetChange d "tags_all").1
                        (GetChange d "tags_all").2])).
Proof.
  intros d Hip Htags Hupdate.
  unfold resourceInstanceUpdate, update_ip_address_type, update_tags_all.
  run_monad. fold d. rewrite Hip. run_monad. fold d. rewrite Htags.
  destruct (GetChange d "tags_all") as [o n] eqn:Hchange. run_monad.
  cbn [fst snd] in Hupdate. by rewrite Hupdate.
Qed.

(** An update that changes both [ip_address_type] and [tags_all] calls
    SetIpAddressType, waits on its first operation, updates the tags and
    reads, in this order. *)
Theorem update_order meta s op rest w1 w2 w3 :
  let d := rd s in
  let conn := LightsailConn meta in
  mutation_response MutSetIpAddressType meta s
    = Some (Some (Some op :: rest), None, w1) →
  waitOperation conn (Operation_Id op) w1 = (None, w2) →
  HasChange d "tags_all" = true →
  UpdateTags conn (Id d) (GetChange d "tags_all").1
    (GetChange d "tags_all").2 w2 = (None, w3) →
  resourceInstanceUpdate meta s
  = resourceInstanceRead meta
      (mkState w3 d (log s)
         (trace s ++ [CallSetIpAddressType (set_ip_request d);
                      CallWaitOperation (Operation_Id op);
                      CallUpdateTags (Id d) (GetChange d "tags_all").1
                        (GetChange d "tags_all").2])).
Proof.
  intros d conn Hresp Hwait Htags Hupdate.
  change (resourceInstanceUpdate meta s)
    with (handler MutSetIpAddressType meta s).
  rewrite (handler_after_call _ _ _ _ _ Hresp).
  cbn [first_wait]. unfold update_wait, update_tags_all, called. run_monad.
  fold conn d. rewrite Hwait. run_monad. fold d. rewrite Htags.
  destruct (GetChange d "tags_all") as [o n] eqn:Hchange. run_monad.
  cbn [fst snd] in Hupdate. rewrite Hupdate. run_monad.
  by rewrite <- !app_assoc.
Qed.

(** ** Delete *)

(** A deletion returns nil exactly when DeleteInstance succeeds with a first
    operation and the wait on it succeeds. *)
Theorem delete_succeeds_iff meta s :
  let conn := LightsailConn meta in
  (∃ s', resourceInstanceDelete meta s = Normal None s')
  ↔ ∃ resp op rest w1 w2,
      DeleteInstance conn (delete_request (rd s)) (world s)
        = ((Some resp, None), w1)
      ∧ DeleteInstanceOutput_Operations resp = Some op :: rest
      ∧ waitOperation conn (Operation_Id op) w1 = (None, w2).
Proof.
  cbv zeta. unfold resourceInstanceDelete. run_monad.
  destruct (DeleteInstance _ _ _) as [[resp err] w1]. run_monad. split.
  - intros [s' Hdel].
    destruct err as [err|]; [done|].
    destruct resp as [resp|]; run_monad; [|done].
    destruct (DeleteInstanceOutput_Operations resp) as [|[op|] rest] eqn:Hops;
      run_monad; try done.
    destruct (waitOperation _ _ _) as [[werr|] w2] eqn:Hwait; [done|].
    by exists resp, op, rest, w1, w2.
  - intros (resp0 & op & rest & w1' & w2 & [= -> -> ->] & Hops & Hwait).
    run_monad. rewrite Hops. run_monad. rewrite Hwait. eauto.
Qed.

(** In every outcome of a deletion, panics included, the resource data and
    the log are as they were, and the outgoing calls are the DeleteInstance
    and at most one wait: a deletion never reads the instance back. *)
Theorem delete_footprint meta s :
  let s' := final (resourceInstanceDelete meta s) in
  rd s' = rd s
  ∧ log s' = log s
  ∧ ∃ calls,
      trace s' = trace s ++ CallDeleteInstance (delete_request (rd s)) :: calls
      ∧ (calls = [] ∨ ∃ oid, calls = [CallWaitOperation oid]).
Proof.
  cbv zeta. unfold resourceInstanceDelete. run_monad.
  destruct (DeleteInstance _ _ _) as [[resp err] w1]. run_monad.
  destruct err as [err|]; [cbn; eauto 6|].
  destruct resp as [resp|]; run_monad; [|cbn; eauto 6].
  destruct (DeleteInstanceOutput_Operations resp) as [|[op|] rest];
    run_monad; [cbn; eauto 6| |cbn; eauto 6].
  destruct (waitOperation _ _ _) as [[werr|] w2]; cbn;
    rewrite <- app_assoc; eauto 8.
Qed.

(** ** Responses that a read does not expect *)


(** The read dereferences the instance, its location, its creation time
    and its hardware without a check: a response that lacks one of them
    makes it panic, and nothing is returned. *)
Theorem read_panics_on_incomplete_response meta s resp w1 :
  GetInstance (LightsailConn meta) (get_request (rd s)) (world s)
    = ((Some resp, None), w1) →
  (GetInstanceOutput_Instance resp = None
   ∨ ∃ i, GetInstanceOutput_Instance resp = Some i
          ∧ (Instance_Location i = None ∨ Instance_CreatedAt i = None
             ∨ Instance_Hardware i = None)) →
  ∃ s', resourceInstanceRead meta s = Panic nil_dereference s'.
Proof.
  intros Hget Hmissing. apply (read_panics _ _ _ _ Hget).
  intros i Hi. destruct Hmissing as [Hnone|(i' & Hi' & Hfield)].
  - congruence.
  - rewrite Hi in Hi'. by injection Hi' as <-.
Qed.

End HandlerProperties.

(** ** The schema *)

(** C10: the diff of [key_pair_name] is suppressed exactly when the stored
    value is LightsailDefaultKeyPair and the configured value is empty. *)
Theorem key_pair_name_diff_suppressed (k old new : string) (d : ResourceData) :
  key_pair_name_DiffSuppressFunc k old new d = true
  ↔ old = "LightsailDefaultKeyPair" ∧ new = "".
Proof.
  unfold key_pair_name_DiffSuppressFunc.
  destruct (String.eqb_spec old "LightsailDefaultKeyPair") as [->|Hold];
    destruct (String.eqb_spec new "") as [->|Hnew]; cbn;
    split; intros; try discriminate; try tauto; intuition congruence.
Qed.

(** ** The validation of [name] *)

Section Regexp.

Implicit Types (r : re) (s : list N) (c : N).

(** A decoding step consumes at least one byte, so the fuel of [runes]
    never runs out: more fuel decodes the same runes. *)
Lemma DecodeRune_width (p : list N) : p ≠ [] → (1 ≤ (DecodeRune p).2)%nat.
Proof.
  intros Hp. destruct p as [|s0 p1]; [done|]. unfold DecodeRune.
  repeat case_match; cbn; lia.
Qed.

Lemma runes_fuel_enough (f1 f2 : nat) (p : list N) :
  (length p ≤ f1)%nat → (length p ≤ f2)%nat →
  runes_fuel f1 p = runes_fuel f2 p.
Proof.
  revert f2 p. induction f1 as [|f1 IH]; intros f2 p H1 H2.
  - destruct p; [|cbn in H1; lia]. by destruct f2.
  - destruct p as [|s0 p1]; [by destruct f2|].
    destruct f2 as [|f2]; [cbn in H2; lia|]. cbn [runes_fuel].
    pose proof (DecodeRune_width (s0 :: p1) ltac:(done)) as Hw.
    destruct (DecodeRune (s0 :: p1)) as [r w]. cbn in Hw.
    f_equal. destruct w as [|w]; [lia|]. cbn [drop].
    apply IH; rewrite length_drop; cbn in H1, H2; lia.
Qed.

Lemma nullable_matches r : nullable r = true ↔ matches r [].
Proof.
  split.
  - induction r; cbn; intros Hn; try discriminate.
    + constructor.
    + apply andb_true_iff in Hn as [H1 H2].
      change (@nil N) with (@nil N ++ []). constructor; auto.
    + apply orb_true_iff in Hn as [H1|H2];
        [apply M_AltL | apply M_AltR]; auto.
    + constructor.
    + change (@nil N) with (@nil N ++ []). constructor; [auto|constructor].
  - intros Hm. remember (@nil N) as s eqn:Hs.
    induction Hm; cbn; try done.
    + apply app_eq_nil in Hs as [-> ->]. by rewrite IHHm1, IHHm2.
    + by rewrite IHHm.
    + rewrite IHHm. apply orb_true_r. done.
    + apply app_eq_nil in Hs as [-> ->]. auto.
Qed.

Lemma matches_deriv c r s : matches r (c :: s) → matches (deriv c r) s.
Proof.
  intros Hm. remember (c :: s) as cs eqn:Hcs. revert s Hcs.
  induction Hm as
    [ | neg rg c' Hc | r1 r2 s1 s2 H1 IH1 H2 IH2 | r1 r2 s1 H1 IH1
    | r1 r2 s2 H2 IH2 | r | r s1 s2 H1 IH1 H2 IH2 | r s1 s2 H1 IH1 H2 IH2 ];
    intros s Hcs; cbn.
  - discriminate.
  - injection Hcs as -> <-. rewrite Hc. constructor.
  - destruct s1 as [|c1 s1]; cbn in Hcs.
    + subst s2. apply nullable_matches in H1. rewrite H1.
      apply M_AltR. by apply IH2.
    + injection Hcs as -> <-.
      assert (matches (ReCat (deriv c r1) r2) (s1 ++ s2))
        by (constructor; auto).
      destruct (nullable r1); [by apply M_AltL | done].
  - apply M_AltL. by apply IH1.
  - apply M_AltR. by apply IH2.
  - discriminate.
  - destruct s1 as [|c1 s1]; cbn in Hcs.
    + by apply IH2.
    + injection Hcs as -> <-. constructor; auto.
  - destruct s1 as [|c1 s1]; cbn in Hcs.
    + by apply IH2.
    + injection Hcs as -> <-. constructor; auto.
Qed.

Lemma deriv_matches c r s : matches (deriv c r) s → matches r (c :: s).
Proof.
  revert s. induction r as [| |neg rg|r1 IH1 r2 IH2|r1 IH1 r2 IH2|r IH|r IH];
    intros s; cbn; intros Hm.
  - inversion Hm.
  - inversion Hm.
  - destruct (class_matches neg rg c) eqn:Hc; inversion Hm; subst.
    by constructor.
  - assert (Hcat : matches (ReCat (deriv c r1) r2) s →
                   matches (ReCat r1 r2) (c :: s)).
    { intros Hm'. inversion Hm' as [| |? ? s1 s2 H1 H2| | | | |]; subst.
      change (c :: s1 ++ s2) with ((c :: s1) ++ s2). constructor; auto. }
    destruct (nullable r1) eqn:Hn; [|auto].
    inversion Hm as [| | |? ? ? H1|? ? ? H2| | |]; subst; [auto|].
    change (c :: s) with ([] ++ c :: s). constructor; [|auto].
    by apply nullable_matches.
  - inversion Hm; subst; [apply M_AltL | apply M_AltR]; auto.
  - inversion Hm as [| |? ? s1 s2 H1 H2| | | | |]; subst.
    change (c :: s1 ++ s2) with ((c :: s1) ++ s2). constructor; auto.
  - inversion Hm as [| |? ? s1 s2 H1 H2| | | | |]; subst.
    change (c :: s1 ++ s2) with ((c :: s1) ++ s2). constructor; auto.
Qed.

(** The matcher decides the language. *)
Lemma full_match_matches r s : full_match r s = true ↔ matches r s.
Proof.
  revert r. induction s as [|c s IH]; intros r; cbn.
  - apply nullable_matches.
  - rewrite IH. split; [apply deriv_matches | apply matches_deriv].
Qed.

Lemma matches_empty s : matches ReEmpty s ↔ s = [].
Proof.
  split; [by inversion 1 | intros ->; constructor].
Qed.

Lemma matches_class neg rg s :
  matches (ReClass neg rg) s ↔ ∃ c, s = [c] ∧ class_matches neg rg c = true.
Proof.
  split.
  - inversion 1; subst. eauto.
  - intros (c & -> & Hc). by constructor.
Qed.

Lemma matches_cat r1 r2 s :
  matches (ReCat r1 r2) s
  ↔ ∃ s1 s2, s = s1 ++ s2 ∧ matches r1 s1 ∧ matches r2 s2.
Proof.
  split.
  - inversion 1; subst. eauto.
  - intros (s1 & s2 & -> & H1 & H2). by constructor.
Qed.

Lemma matches_star_class neg rg s :
  matches (ReStar (ReClass neg rg)) s
  ↔ Forall (λ c, class_matches neg rg c = true) s.
Proof.
  split.
  - intros Hm. remember (ReStar (ReClass neg rg)) as r eqn:Hr.
    induction Hm as [| | | | | |r' s1 s2 H1 _ H2 IH2|]; try discriminate.
    + constructor.
    + injection Hr as ->. apply matches_class in H1 as (c & -> & Hc).
      constructor; auto.
  - induction 1 as [|c s Hc _ IH].
    + constructor.
    + change (c :: s) with ([c] ++ s). constructor; [|done].
      by constructor.
Qed.

Lemma matches_plus_class neg rg s :
  matches (RePlus (ReClass neg rg)) s
  ↔ s ≠ [] ∧ Forall (λ c, class_matches neg rg c = true) s.
Proof.
  split.
  - inversion 1 as [| | | | | | |? s1 s2 H1 H2]; subst.
    apply matches_class in H1 as (c & -> & Hc).
    apply matches_star_class in H2. split; [done|]. by constructor.
  - intros [Hne Hall]. destruct Hall as [|c s Hc Hall]; [done|].
    change (c :: s) with ([c] ++ s). constructor.
    + by constructor.
    + by apply matches_star_class.
Qed.

Lemma matches_any s : matches (ReStar any_rune) s.
Proof.
  apply matches_star_class. induction s; constructor; auto.
Qed.

Lemma class_matches_plain rg c : class_matches false rg c = in_ranges c rg.
Proof. reflexivity. Qed.

Lemma class_matches_negated rg c :
  class_matches true rg c = true ↔ in_ranges c rg = false.
Proof. unfold class_matches. cbn. by destruct (in_ranges c rg). Qed.

(** The first pattern: the first rune is a letter. *)
Lemma begins_alpha_matches name :
  MatchString re_begins_alpha name = true
  ↔ ∃ c rs, runes name = c :: rs ∧ in_ranges c class_alpha = true.
Proof.
  unfold MatchString, re_begins_alpha. cbn [begin_text body end_text].
  rewrite full_match_matches. split.
  - intros (s1 & s2 & -> & H1%matches_empty & H2)%matches_cat. subst s1.
    apply matches_cat in H2 as (s3 & s4 & -> & H3 & _).
    apply matches_class in H3 as (c & -> & Hc). eauto.
  - intros (c & rs & -> & Hc).
    change (c :: rs) with ([] ++ ([c] ++ rs)).
    constructor; [constructor|]. constructor; [by constructor|].
    apply matches_any.
Qed.

(** The second pattern: one or more runes of the name class, then one rune
    that is none of dot, underscore and hyphen, and nothing more. *)
Lemma name_chars_matches name :
  MatchString re_name_chars name = true
  ↔ ∃ cs l, runes name = cs ++ [l] ∧ cs ≠ []
      ∧ Forall (λ c, in_ranges c class_name = true) cs
      ∧ in_ranges l class_trailing = false.
Proof.
  unfold MatchString, re_name_chars. cbn [begin_text body end_text].
  rewrite full_match_matches. split.
  - intros (s1 & s2 & -> & H1%matches_empty & H2)%matches_cat. subst s1.
    apply matches_cat in H2 as (s3 & s4 & -> & H3 & H4%matches_empty).
    subst s4.
    apply matches_cat in H3 as (cs & s5 & -> & Hcs & H5).
    apply matches_plus_class in Hcs as [Hne Hall].
    apply matches_class in H5 as (l & -> & Hl%class_matches_negated).
    exists cs, l. by rewrite app_nil_r.
  - intros (cs & l & -> & Hne & Hall & Hl).
    change (cs ++ [l]) with ([] ++ (cs ++ [l])).
    constructor; [constructor|].
    rewrite <- (app_nil_r (cs ++ [l])). constructor; [|constructor].
    constructor.
    + by apply matches_plus_class.
    + constructor. by apply class_matches_negated.
Qed.

Lemma name_accepted_unfold name :
  name_accepted name
  = negb ((len name <? 2)%Z || (255 <? len name)%Z)
    && MatchString re_begins_alpha name
    && MatchString re_name_chars name.
Proof.
  unfold name_accepted, name_ValidateFunc, All, StringLenBetween, StringMatch.
  cbn [fold_left fst snd].
  destruct ((len name <? 2)%Z || (255 <? len name)%Z);
    destruct (MatchString re_begins_alpha name);
    destruct (MatchString re_name_chars name); reflexivity.
Qed.

Lemma alpha_in_name_class c :
  in_ranges c class_alpha = true → in_ranges c class_name = true.
Proof.
  unfold in_ranges, class_alpha, class_name. cbn [existsb fst snd].
  intros H. rewrite orb_false_r in H.
  apply orb_true_iff in H as [H|H]; rewrite H; cbn.
  - done.
  - by rewrite orb_true_r.
Qed.

(** What the validation of [name] accepts: a name of 2 to 255 bytes whose
    first rune is a letter, whose runes but the last are of the name class
    and whose last rune is none of dot, underscore and hyphen. *)
Theorem name_accepted_iff name :
  name_accepted name = true
  ↔ (2 ≤ len name ≤ 255)%Z
    ∧ ∃ c cs l, runes name = c :: cs ++ [l]
        ∧ in_ranges c class_alpha = true
        ∧ Forall (λ c, in_ranges c class_name = true) cs
        ∧ in_ranges l class_trailing = false.
Proof.
  rewrite name_accepted_unfold, !andb_true_iff, negb_true_iff, orb_false_iff.
  rewrite begins_alpha_matches, name_chars_matches, !Z.ltb_ge.
  split.
  - intros [[[Hlo Hhi] (c & rs & Hrs & Hc)] (cs & l & Hcs & Hne & Hall & Hl)].
    split; [lia|]. rewrite Hrs in Hcs.
    destruct cs as [|c' cs]; [done|]. injection Hcs as <- ->.
    exists c, cs, l. apply Forall_cons in Hall as [_ Hall]. done.
  - intros [[Hlo Hhi] (c & cs & l & Hrs & Hc & Hall & Hl)].
    split; [split; [lia|]|].
    + eauto.
    + exists (c :: cs), l. repeat split; try done.
      constructor; [by apply alpha_in_name_class | done].
Qed.

Example name_accepted_test1 : name_accepted "test1" = true.
Proof. vm_compute. reflexivity. Qed.

Example name_accepted_acceptance_test :
  name_accepted "tf-acc-test-8129457123" = true.
Proof. vm_compute. reflexivity. Qed.

Example name_rejected_one_character : name_accepted "a" = false.
Proof. vm_compute. reflexivity. Qed.

Example name_rejected_trailing_dot : name_accepted "ab." = false.
Proof. vm_compute. reflexivity. Qed.

Example name_rejected_leading_digit : name_accepted "1ab" = false.
Proof. vm_compute. reflexivity. Qed.

Example name_rejected_inner_space : name_accepted "a b" = false.
Proof. vm_compute. reflexivity. Qed.

(** The two bytes C3 A9 are one rune, U+00E9, which the last position of the
    second pattern takes. *)
Example runes_two_byte_sequence :
  runes (String "a" (String (ascii_of_N 0xC3) (String (ascii_of_N 0xA9) "")))
  = [rune "a"; 0xE9%N].
Proof. vm_compute. reflexivity. Qed.

Example name_accepted_trailing_e_acute :
  name_accepted
    (String "a" (String (ascii_of_N 0xC3) (String (ascii_of_N 0xA9) "")))
  = true.
Proof. vm_compute. reflexivity. Qed.

(** C5: the validation of [name] accepts the name a!, whose last character
    is none of the characters that the pattern's message allows: the last
    position of the second pattern takes any character but dot, underscore
    and hyphen. *)
Theorem name_validation_accepts_foreign_last_character :
  name_accepted "a!" = true
  ∧ name_ValidateFunc (VString "a!") "name" = ([], []).
Proof. split; vm_compute; reflexivity. Qed.

End Regexp.

(** ** The operation reconciler *)



(** A failure is reported only when a fetch found the operation failed,
    with that reason. *)
Lemma await_from_failed poll seen retries (n ceiling : nat) reason :
  await_from poll seen retries n ceiling = AwaitFailed reason →
  ∃ i : nat,
    (n ≤ i)%nat ∧ (i < n + ceiling)%nat ∧ poll i = Found (Failed reason).
Proof.
  revert seen retries n.
  induction ceiling as [|ceiling IH]; intros seen retries n; cbn.
  - discriminate.
  - destruct (poll n) as [[| |reason']| |err] eqn:Hn.
    + intros H. destruct (IH _ _ _ H) as (i & ? & ? & ?).
      exists i. repeat split; [lia|lia|done].
    + discriminate.
    + intros [= ->]. exists n. repeat split; [lia|lia|done].
    + destruct seen; [|discriminate].
      destruct retries as [|retries]; [discriminate|].
      intros H. destruct (IH _ _ _ H) as (i & ? & ? & ?).
      exists i. repeat split; [lia|lia|done].
    + destruct retries as [|retries]; [discriminate|].
      intros H. destruct (IH _ _ _ H) as (i & ? & ? & ?).
      exists i. repeat split; [lia|lia|done].
Qed.

Example await_succeeds_on_third_fetch :
  await (λ n, if (n <? 2)%nat then Found Pending else Found Succeeded) 3 40
  = AwaitSuccess.
Proof. reflexivity. Qed.

Example await_reports_vendor_failure :
  await (λ n, if (n <? 2)%nat then Found Pending else Found (Failed "boom"))
    3 40
  = AwaitFailed "boom".
Proof. reflexivity. Qed.

Example await_rejects_unknown_operation :
  await (λ _, NotFound) 3 40 = AwaitMisuse.
Proof. reflexivity. Qed.

(** ** The handlers on the scripted control plane *)

(** The scenario of the specification: the instance test1 is created in
    us-east-1a from the blueprint amazon_linux and the bundle nano_1_0; the
    wait succeeds and the read gives these attributes back. *)
Example create_scenario :
  let o := resourceInstanceCreate (test_meta working_wait healthy_conn)
             (test_state 0) in
  observe o
  = (inl None, rd (final o))
  ∧ Id (rd (final o)) = "test1"
  ∧ Get (rd (final o)) "availability_zone" = VString "us-east-1a"
  ∧ Get (rd (final o)) "blueprint_id" = VString "amazon_linux"
  ∧ Get (rd (final o)) "bundle_id" = VString "nano_1_0"
  ∧ waited (trace (final o)) = [Some "op-1"]
  ∧ log (final o) = [].
Proof. vm_compute. repeat split. Qed.


Lemma create_wait_failure_is_logged_witness :
  resourceInstanceCreate (test_meta failing_wait healthy_conn) (test_state 2)
  = resourceInstanceRead (test_meta failing_wait healthy_conn)
      (mkState 0 test_data
         ["[ERR] Error waiting for instance (test1) to become ready: "
          +:+ Error timed_out]
         [CallCreateInstances
            (create_request (test_meta failing_wait healthy_conn) test_data);
          CallWaitOperation (Some "op-1")]).
Proof.
  apply (create_wait_failure_is_logged (test_meta failing_wait healthy_conn)
           (test_state 2) (mkCreateInstancesOutput (operations_of 2)) op1
           (replicate 2 (Some op2)) 0 timed_out 0);
    reflexivity.
Defined.

Lemma delete_wait_failure_fails_witness :
  resourceInstanceDelete (test_meta failing_wait healthy_conn) (test_state 2)
  = Normal
      (Some (ErrorString
               ("Error waiting for instance (test1) to become destroyed: "
                +:+ Error timed_out)))
      (mkState 0 test_data []
         [CallDeleteInstance (mkDeleteInstanceInput (Some "test1"));
          CallWaitOperation (Some "op-1")]).
Proof.
  apply (delete_wait_failure_fails (test_meta failing_wait healthy_conn)
           (test_state 2) (mkDeleteInstanceOutput (operations_of 2)) op1
           (replicate 2 (Some op2)) 0 timed_out 0);
    reflexivity.
Defined.

Lemma first_operation_only_witness :
  waited (trace (final (handler MutCreate (test_meta working_wait healthy_conn)
                          (test_state 2))))
  = [Some "op-1"]
  ∧ handler MutCreate (test_meta working_wait healthy_conn) (test_state 5)
    = handler MutCreate (test_meta working_wait healthy_conn) (test_state 2).
Proof.
  pose proof (first_operation_only MutCreate
                (test_meta working_wait healthy_conn) (test_state 2) op1
                (replicate 2 (Some op2)) 0 eq_refl) as [Hwaited Hsame].
  split.
  - exact Hwaited.
  - apply (Hsame (test_state 5) (replicate 5 (Some op2))); reflexivity.
Defined.

Lemma default_only_tag_in_tags_all_only_witness :
  ∃ s',
    resourceInstanceRead (test_meta working_wait healthy_conn) (test_state 0)
    = Normal None s'
    ∧ as_map (Get (rd s') "tags_all") !! "Owner" = Some "ops"
    ∧ as_map (Get (rd s') "tags") !! "Owner" = None.
Proof.
  apply (default_only_tag_in_tags_all_only
           (test_meta working_wait healthy_conn) (test_state 0)
           (mkGetInstanceOutput (Some test_instance)) test_instance
           (mkResourceLocation (Some "us-east-1a")) (mkTime 1667908800 0)
           (mkInstanceHardware (Some 1%Z) (Some 0%Z)) 0
           default_tags resource_tags "Owner" (Some "ops"));
    try reflexivity; vm_compute; reflexivity.
Defined.

(** With Owner among the ignored keys, the default tag Owner=ops of the
    response is in neither attribute: the unconditional form of the tag
    property fails. *)
Lemma default_only_tag_ignored_counterexample :
  ¬ @default_only_tags_claim nat working_wait.
Proof.
  intros Hclaim.
  destruct (Hclaim ignoring_meta (test_state 0)
              (mkGetInstanceOutput (Some test_instance)) test_instance
              (mkResourceLocation (Some "us-east-1a")) (mkTime 1667908800 0)
              (mkInstanceHardware (Some 1%Z) (Some 0%Z)) 0
              default_tags resource_tags "Owner" (Some "ops"))
    as (s' & Hread & Hall & _); try reflexivity.
  vm_compute in Hread. injection Hread as <-.
  vm_compute in Hall. discriminate.
Qed.


Lemma read_idempotent_witness :
  observe ((resourceInstanceRead (test_meta working_wait healthy_conn);;
            resourceInstanceRead (test_meta working_wait healthy_conn))
             (test_state 0))
  = observe (resourceInstanceRead (test_meta working_wait healthy_conn)
               (test_state 0)).
Proof.
  apply (read_idempotent (test_meta working_wait healthy_conn) (test_state 0)
           (Some (mkGetInstanceOutput (Some test_instance)), None)).
  intros req w. reflexivity.
Defined.

Lemma delete_needs_an_operation_witness :
  resourceInstanceDelete (test_meta working_wait silent_conn) (test_state 0)
  = Panic index_out_of_range
      (mkState 0 test_data []
         [CallDeleteInstance (mkDeleteInstanceInput (Some "test1"))])
  ∧ resourceInstanceCreate (test_meta working_wait silent_conn) (test_state 0)
    = Normal (Some no_operations)
        (mkState 0 test_data []
           [CallCreateInstances
              (create_request (test_meta working_wait silent_conn)
                 test_data)])
  ∧ resourceInstanceUpdate (test_meta working_wait silent_conn) (test_state 0)
    = Normal (Some no_operations)
        (mkState 0 test_data []
           [CallSetIpAddressType
              (mkSetIpAddressTypeInput (Some "test1") (Some "Instance")
                 (Some "dualstack"))])
  ∧ ∀ s',
      resourceInstanceDelete (test_meta working_wait healthy_conn)
        (test_state 0)
      ≠ Panic index_out_of_range s'.
Proof.
  split; [|split; [|split]].
  - apply (proj1 (delete_needs_an_operation MutDelete
                    (test_meta working_wait silent_conn) (test_state 0) [] 0
                    eq_refl) eq_refl).
  - apply (proj1 (delete_needs_an_operation MutCreate
                    (test_meta working_wait silent_conn) (test_state 0) [] 0
                    eq_refl) eq_refl).
  - apply (proj1 (delete_needs_an_operation MutSetIpAddressType
                    (test_meta working_wait silent_conn) (test_state 0) [] 0
                    eq_refl) eq_refl).
  - apply (proj2 (delete_needs_an_operation MutDelete
                    (test_meta working_wait healthy_conn) (test_state 0)
                    (operations_of 0) 0 eq_refl) eq_refl).
    discriminate.
Defined.

(** ** The acceptance checks *)

Section CheckProperties.

Context `{!CheckExternals}.

Lemma check_destroyed_passes (l : list (string * ResourceState)) :
  check_destroyed l = Returned None
  ↔ ∀ n rs, (n, rs) ∈ l →
      ResourceState_Type rs = "aws_lightsail_lb_attachment" → is_gone rs.
Proof.
  induction l as [|[n0 rs0] l IH]; cbn [check_destroyed].
  - split; [|done]. intros _ n rs Hin. by apply elem_of_nil in Hin.
  - destruct (String.eqb_spec (ResourceState_Type rs0)
                "aws_lightsail_lb_attachment") as [Hty|Hty]; cbn [negb].
    + destruct (ResourceState_Primary rs0) as [p|] eqn:Hp.
      * destruct (FindLoadBalancerAttachmentById (InstanceState_ID p))
          as [out err] eqn:Hfind.
        destruct (tfresource_NotFound err) eqn:Hnf.
        -- rewrite IH. split.
           ++ intros Hall n rs [[= -> ->]|Hin]%elem_of_cons Hrs;
                [|by apply (Hall n)].
              exists p. by rewrite Hfind.
           ++ intros Hall n rs Hin. apply (Hall n). by right.
        -- split.
           ++ by destruct err.
           ++ intros Hall.
              destruct (Hall n0 rs0 ltac:(by left) Hty) as (p' & Hp' & Hgone).
              rewrite Hp in Hp'. injection Hp' as <-.
              rewrite Hfind in Hgone. cbn in Hgone. congruence.
      * split; [done|]. intros Hall.
        destruct (Hall n0 rs0 ltac:(by left) Hty) as (p' & Hp' & _).
        congruence.
    + rewrite IH. split.
      * intros Hall n rs [[= -> ->]|Hin]%elem_of_cons Hrs;
          [done|by apply (Hall n)].
      * intros Hall n rs Hin. apply (Hall n). by right.
Qed.

(** Whatever the order in which the resources of the state are visited, the
    destroy check passes exactly when every resource of the attachment type
    is reported as not found; resources of other types do not count. *)
Theorem destroy_check_passes_iff (s : TerraformState)
  (l : list (string * ResourceState)) :
  l ≡ₚ map_to_list (RootModule_Resources s) →
  check_destroyed l = Returned None
  ↔ ∀ n rs, RootModule_Resources s !! n = Some rs →
      ResourceState_Type rs = "aws_lightsail_lb_attachment" → is_gone rs.
Proof.
  intros Hperm. rewrite check_destroyed_passes. split.
  - intros Hall n rs Hn. apply (Hall n). rewrite Hperm.
    by apply elem_of_map_to_list.
  - intros Hall n rs Hin. apply (Hall n). rewrite Hperm in Hin.
    by apply elem_of_map_to_list in Hin.
Qed.

(** The exists check passes exactly when the state has the resource, its
    identifier is not empty and the lookup gives an attachment and no
    error. *)
Theorem exists_check_passes_iff (n : string) (liName : option string)
  (s : TerraformState) :
  testAccCheckLoadBalancerAttachmentExists n liName s = Returned None
  ↔ ∃ rs Primary out,
      RootModule_Resources s !! n = Some rs
      ∧ ResourceState_Primary rs = Some Primary
      ∧ InstanceState_ID Primary ≠ ""
      ∧ FindLoadBalancerAttachmentById (InstanceState_ID Primary)
        = (Some out, None).
Proof.
  unfold testAccCheckLoadBalancerAttachmentExists. split.
  - destruct (RootModule_Resources s !! n) as [rs|] eqn:Hn; [|done].
    destruct (ResourceState_Primary rs) as [p|] eqn:Hp; [|done].
    destruct (String.eqb_spec (InstanceState_ID p) "") as [|Hid]; [done|].
    destruct (FindLoadBalancerAttachmentById (InstanceState_ID p))
      as [[out|] [err|]] eqn:Hfind; try done.
    intros _. by exists rs, p, out.
  - intros (rs & p & out & -> & -> & Hid & ->).
    by destruct (String.eqb_spec (InstanceState_ID p) "").
Qed.

(** The two checks exclude each other on an attachment: when the exists
    check passes for a resource of the attachment type, the destroy check
    fails, in whatever order it visits the resources. *)
Theorem exists_check_excludes_destroyed (n : string)
  (liName : option string) (s : TerraformState) (rs : ResourceState)
  (l : list (string * ResourceState)) :
  tfresource_NotFound None = false →
  RootModule_Resources s !! n = Some rs →
  ResourceState_Type rs = "aws_lightsail_lb_attachment" →
  testAccCheckLoadBalancerAttachmentExists n liName s = Returned None →
  l ≡ₚ map_to_list (RootModule_Resources s) →
  check_destroyed l ≠ Returned None.
Proof.
  intros Hnil Hn Hty Hexists Hperm Hdestroyed.
  unfold testAccCheckLoadBalancerAttachmentExists in Hexists.
  rewrite Hn in Hexists.
  destruct (ResourceState_Primary rs) as [p|] eqn:Hp; [|done].
  destruct (String.eqb (InstanceState_ID p) ""); [done|].
  destruct (FindLoadBalancerAttachmentById (InstanceState_ID p))
    as [[out|] [err|]] eqn:Hfind; try done.
  pose proof (proj1 (check_destroyed_passes l) Hdestroyed) as Hall.
  destruct (Hall n rs) as (p' & Hp' & Hgone); [|done|].
  { rewrite Hperm. by apply elem_of_map_to_list. }
  rewrite Hp in Hp'. injection Hp' as <-.
  rewrite Hfind in Hgone. cbn in Hgone. congruence.
Qed.

End CheckProperties.

(** ** Names of plain ASCII *)

Lemma length_bytes (s : string) : length (bytes s) = String.length s.
Proof. induction s as [|a s IH]; cbn; congruence. Qed.

Lemma runes_fuel_ascii (p : list N) (fuel : nat) :
  Forall (λ b, (b < 0x80)%N) p → (length p ≤ fuel)%nat →
  runes_fuel fuel p = p.
Proof.
  revert fuel. induction p as [|b p IH]; intros fuel Hascii Hfuel.
  - by destruct fuel.
  - destruct fuel as [|fuel]; [cbn in Hfuel; lia|].
    apply Forall_cons in Hascii as [Hb Hascii].
    cbn [runes_fuel]. unfold DecodeRune.
    rewrite (proj2 (N.ltb_lt b 0x80) Hb). cbn [drop].
    rewrite IH; [done|done|cbn in Hfuel; lia].
Qed.

(** The runes of a name of plain ASCII are its bytes. *)
Lemma runes_ascii (s : string) : is_ascii s → runes s = bytes s.
Proof.
  intros Hascii. unfold runes. apply runes_fuel_ascii; [done|].
  by rewrite length_bytes.
Qed.

Lemma name_accepted_runes name :
  name_accepted name = true
  ↔ (2 ≤ len name ≤ 255)%Z
    ∧ ∃ c cs l, runes name = c :: cs ++ [l]
        ∧ in_ranges c class_alpha = true
        ∧ Forall (λ c, in_ranges c class_name = true) cs
        ∧ in_ranges l class_trailing = false.
Proof.
  rewrite name_accepted_unfold, !andb_true_iff, negb_true_iff, orb_false_iff.
  rewrite begins_alpha_matches, name_chars_matches, !Z.ltb_ge.
  split.
  - intros [[[Hlo Hhi] (c & rs & Hrs & Hc)] (cs & l & Hcs & Hne & Hall & Hl)].
    split; [lia|]. rewrite Hrs in Hcs.
    destruct cs as [|c' cs]; [done|]. injection Hcs as <- ->.
    exists c, cs, l. apply Forall_cons in Hall as [_ Hall]. done.
  - intros [[Hlo Hhi] (c & cs & l & Hrs & Hc & Hall & Hl)].
    split; [split; [lia|]|].
    + eauto.
    + exists (c :: cs), l. repeat split; try done.
      constructor; [by apply alpha_in_name_class | done].
Qed.

(** For a name of plain ASCII the validation is a condition on the bytes:
    2 to 255 of them, the first a letter, the last none of dot, underscore
    and hyphen, and those before the last letters, digits, underscores,
    hyphens and dots. *)
Theorem name_accepted_ascii_iff name :
  is_ascii name →
  name_accepted name = true
  ↔ (2 ≤ len name ≤ 255)%Z
    ∧ ∃ c cs l, bytes name = c :: cs ++ [l]
        ∧ in_ranges c class_alpha = true
        ∧ Forall (λ c, in_ranges c class_name = true) cs
        ∧ in_ranges l class_trailing = false.
Proof.
  intros Hascii. by rewrite name_accepted_runes, (runes_ascii _ Hascii).
Qed.

(** ** What every accepted name has, byte by byte *)

Lemma between_spec (lo hi b : N) :
  between lo hi b = true ↔ (lo ≤ b ∧ b ≤ hi)%N.
Proof. unfold between. rewrite andb_true_iff, !N.leb_le. done. Qed.

Lemma lor_high (a b : N) :
  (0x80 ≤ a)%N ∨ (0x80 ≤ b)%N → (0x80 ≤ N.lor a b)%N.
Proof.
  intros Hhigh.
  assert (Hlog : (7 ≤ N.log2 (N.lor a b))%N).
  { rewrite N.log2_lor.
    destruct Hhigh as [H|H];
      apply (N.log2_le_mono 0x80) in H; change (N.log2 0x80) with 7%N in H;
      lia. }
  assert (Hpos : (0 < N.lor a b)%N).
  { destruct (N.lor a b) eqn:Hz; [|lia]. apply N.lor_eq_0_iff in Hz. lia. }
  apply (N.log2_le_pow2 _ 7) in Hlog; [|done].
  by change (2 ^ 7)%N with 0x80%N in Hlog.
Qed.

Lemma shiftl_high (a n : N) : (0x80 ≤ a * 2 ^ n)%N → (0x80 ≤ N.shiftl a n)%N.
Proof. by rewrite N.shiftl_mul_pow2. Qed.

Lemma land_low_bits (a n : N) : N.land a (N.ones n) = (a mod 2 ^ n)%N.
Proof. apply N.land_ones. Qed.

Ltac by_division s m :=
  let Hdiv := fresh in
  let Hmod := fresh in
  pose proof (N.div_mod s m ltac:(done)) as Hdiv;
  pose proof (N.mod_lt s m ltac:(done)) as Hmod;
  generalize dependent (s / m)%N; generalize dependent (s mod m)%N;
  intros; lia.

Lemma lead_two_bytes (s0 : N) :
  (0xC2 ≤ s0)%N → (s0 ≤ 0xDF)%N →
  (0x80 ≤ N.shiftl (N.land s0 0x1F) 6)%N.
Proof.
  intros Hlo Hhi. apply shiftl_high.
  change 0x1F%N with (N.ones 5). rewrite land_low_bits.
  change (2 ^ 5)%N with 32%N. change (2 ^ 6)%N with 64%N. by_division s0 32%N.
Qed.

Lemma lead_three_bytes (s0 : N) :
  (0xE1 ≤ s0)%N → (s0 ≤ 0xEF)%N →
  (0x80 ≤ N.shiftl (N.land s0 0x0F) 12)%N.
Proof.
  intros Hlo Hhi. apply shiftl_high.
  change 0x0F%N with (N.ones 4). rewrite land_low_bits.
  change (2 ^ 4)%N with 16%N. change (2 ^ 12)%N with 4096%N.
  by_division s0 16%N.
Qed.

Lemma lead_four_bytes (s0 : N) :
  (0xF1 ≤ s0)%N → (s0 ≤ 0xF4)%N →
  (0x80 ≤ N.shiftl (N.land s0 0x07) 18)%N.
Proof.
  intros Hlo Hhi. apply shiftl_high.
  change 0x07%N with (N.ones 3). rewrite land_low_bits.
  change (2 ^ 3)%N with 8%N. change (2 ^ 18)%N with 262144%N.
  by_division s0 8%N.
Qed.

Lemma cont_three_bytes (s1 : N) :
  (0xA0 ≤ s1)%N → (s1 ≤ 0xBF)%N → (0x80 ≤ N.shiftl (cont_bits s1) 6)%N.
Proof.
  intros Hlo Hhi. apply shiftl_high. unfold cont_bits.
  change 0x3F%N with (N.ones 6). rewrite land_low_bits.
  change (2 ^ 6)%N with 64%N. by_division s1 64%N.
Qed.

Lemma cont_four_bytes (s1 : N) :
  (0x90 ≤ s1)%N → (s1 ≤ 0xBF)%N → (0x80 ≤ N.shiftl (cont_bits s1) 12)%N.
Proof.
  intros Hlo Hhi. apply shiftl_high. unfold cont_bits.
  change 0x3F%N with (N.ones 6). rewrite land_low_bits.
  change (2 ^ 6)%N with 64%N. change (2 ^ 12)%N with 4096%N.
  by_division s1 64%N.
Qed.

(** A rune below [utf8.RuneSelf] is decoded from one byte, which is the
    rune. *)
Lemma DecodeRune_below_RuneSelf (p : list N) (c : N) (w : nat) :
  DecodeRune p = (c, w) → (c < 0x80)%N → ∃ p', p = c :: p' ∧ w = 1%nat.
Proof.
  unfold DecodeRune. destruct p as [|s0 p1].
  { intros [= <- <-] Hlt. by vm_compute in Hlt. }
  destruct (s0 <? 0x80)%N eqn:H0; [intros [= <- <-] _; eauto|].
  destruct (between 0xC2 0xDF s0) eqn:H2.
  { apply between_spec in H2 as [Hlo Hhi].
    destruct p1 as [|s1 p2]; [intros [= <- <-] Hlt; by vm_compute in Hlt|].
    destruct (is_cont s1); intros [= <- <-] Hlt; [|by vm_compute in Hlt].
    pose proof (lor_high (N.shiftl (N.land s0 0x1F) 6) (cont_bits s1)
                  (or_introl (lead_two_bytes s0 Hlo Hhi))).
    lia. }
  destruct (between 0xE0 0xEF s0) eqn:H3.
  { apply between_spec in H3 as [Hlo Hhi]. cbv zeta.
    destruct (N.eqb_spec s0 0xE0) as [He0|He0];
      destruct (N.eqb_spec s0 0xED) as [Hed|Hed];
      (destruct p1 as [|s1 [|s2 p3]];
         try (intros [= <- <-] Hlt; by vm_compute in Hlt));
      (destruct (between _ _ s1) eqn:H1;
         [|intros [= <- <-] Hlt; by vm_compute in Hlt]);
      (destruct (is_cont s2); intros [= <- <-] Hlt;
         [|by vm_compute in Hlt]);
      exfalso; apply between_spec in H1 as [Hlo1 Hhi1].
    1,2: assert (0x80 ≤ N.lor (N.shiftl (cont_bits s1) 6) (cont_bits s2))%N
           as Hlow
           by (apply lor_high; left; apply cont_three_bytes; lia);
         pose proof (lor_high (N.shiftl (N.land s0 0x0F) 12) _
                       (or_intror Hlow));
         lia.
    all: pose proof (lor_high (N.shiftl (N.land s0 0x0F) 12)
                       (N.lor (N.shiftl (cont_bits s1) 6) (cont_bits s2))
                       (or_introl (lead_three_bytes s0 ltac:(lia) Hhi)));
         lia. }
  destruct (between 0xF0 0xF4 s0) eqn:H4.
  { apply between_spec in H4 as [Hlo Hhi]. cbv zeta.
    destruct (N.eqb_spec s0 0xF0) as [Hf0|Hf0];
      destruct (N.eqb_spec s0 0xF4) as [Hf4|Hf4];
      (destruct p1 as [|s1 [|s2 [|s3 p4]]];
         try (intros [= <- <-] Hlt; by vm_compute in Hlt));
      (destruct (between _ _ s1) eqn:H1;
         [|intros [= <- <-] Hlt; by vm_compute in Hlt]);
      (destruct (is_cont s2);
         [|intros [= <- <-] Hlt; by vm_compute in Hlt]);
      (destruct (is_cont s3); intros [= <- <-] Hlt;
         [|by vm_compute in Hlt]);
      exfalso; apply between_spec in H1 as [Hlo1 Hhi1].
    1,2: assert (0x80 ≤ N.lor (N.shiftl (cont_bits s1) 12)
                          (N.lor (N.shiftl (cont_bits s2) 6) (cont_bits s3)))%N
           as Hlow
           by (apply lor_high; left; apply cont_four_bytes; lia);
         pose proof (lor_high (N.shiftl (N.land s0 0x07) 18) _
                       (or_intror Hlow));
         lia.
    all: pose proof (lor_high (N.shiftl (N.land s0 0x07) 18)
                       (N.lor (N.shiftl (cont_bits s1) 12)
                          (N.lor (N.shiftl (cont_bits s2) 6) (cont_bits s3)))
                       (or_introl (lead_four_bytes s0 ltac:(lia) Hhi)));
         lia. }
  intros [= <- <-] Hlt. by vm_compute in Hlt.
Qed.

Lemma is_cont_high (b : N) : is_cont b = true → (0x80 ≤ b)%N.
Proof. unfold is_cont. rewrite between_spec. lia. Qed.

(** The last byte of the bytes that make the last rune is that rune, or is
    not below [utf8.RuneSelf]. *)
Lemma DecodeRune_last (p : list N) (l : N) (w : nat) :
  DecodeRune p = (l, w) → drop w p = [] → p ≠ [] →
  ∃ b, last p = Some b ∧ (b = l ∨ (0x80 ≤ b)%N).
Proof.
  unfold DecodeRune. destruct p as [|s0 p1]; [done|]. intros Hdec Hdrop _.
  destruct (N.ltb_spec s0 0x80) as [H0|H0].
  { injection Hdec as <- <-. cbn in Hdrop. rewrite drop_0 in Hdrop.
    subst p1. eauto. }
  revert Hdec. cbv zeta.
  repeat match goal with
         | |- context [between ?lo ?hi ?b] =>
             destruct (between lo hi b) eqn:?
         | |- context [is_cont ?b] =>
             let H := fresh "Hcont" in
             destruct (is_cont b) eqn:H;
             [apply is_cont_high in H|]
         | |- context [match ?l with [] => _ | _ :: _ => _ end] =>
             destruct l
         end;
    intros [= <- <-]; cbn in Hdrop; rewrite ?drop_0 in Hdrop;
    try discriminate; subst;
    eexists; (split; [reflexivity|]); by right.
Qed.

Lemma runes_fuel_nil (fuel : nat) (p : list N) :
  (length p ≤ fuel)%nat → runes_fuel fuel p = [] → p = [].
Proof.
  destruct fuel as [|fuel], p as [|s0 p1]; cbn [runes_fuel length];
    try done; [lia|].
  intros _. by destruct (DecodeRune (s0 :: p1)).
Qed.

Lemma last_drop_nonempty {A : Type} (n : nat) (p : list A) :
  drop n p ≠ [] → last (drop n p) = last p.
Proof.
  revert p. induction n as [|n IH]; intros p Hne; [done|].
  destruct p as [|a p]; [done|]. cbn [drop] in *.
  rewrite (IH _ Hne), last_cons.
  destruct (last p) eqn:Hlast; [done|].
  apply last_None in Hlast. subst p. by rewrite drop_nil in Hne.
Qed.

Lemma runes_fuel_last (fuel : nat) (p rs : list N) (l : N) :
  (length p ≤ fuel)%nat → runes_fuel fuel p = rs ++ [l] →
  ∃ b, last p = Some b ∧ (b = l ∨ (0x80 ≤ b)%N).
Proof.
  revert p rs. induction fuel as [|fuel IH]; intros p rs Hfuel Hrunes.
  { by destruct rs. }
  destruct p as [|s0 p1]; [by destruct rs|]. cbn [runes_fuel] in Hrunes.
  pose proof (DecodeRune_width (s0 :: p1) ltac:(done)) as Hw.
  destruct (DecodeRune (s0 :: p1)) as [r w] eqn:Hdec. cbn [snd] in Hw.
  assert (Hrest : (length (drop w (s0 :: p1)) ≤ fuel)%nat).
  { rewrite length_drop. cbn [length] in *. lia. }
  destruct rs as [|r' rs]; cbn in Hrunes; injection Hrunes as -> Hrunes.
  - apply (runes_fuel_nil _ _ Hrest) in Hrunes.
    by apply (DecodeRune_last _ _ _ Hdec).
  - destruct (IH _ _ Hrest Hrunes) as (b & Hlast & Hb).
    exists b. split; [|done]. rewrite <- Hlast. symmetry.
    apply last_drop_nonempty. intros Hnil. by rewrite Hnil in Hlast.
Qed.

Lemma runes_fuel_head (fuel : nat) (p rs : list N) (c : N) :
  runes_fuel fuel p = c :: rs → (c < 0x80)%N → ∃ p', p = c :: p'.
Proof.
  destruct fuel as [|fuel], p as [|s0 p1]; cbn [runes_fuel]; try done.
  destruct (DecodeRune (s0 :: p1)) as [r w] eqn:Hdec.
  intros [= -> _] Hlt.
  destruct (DecodeRune_below_RuneSelf _ _ _ Hdec Hlt) as (p' & Hp & _).
  eauto.
Qed.

Lemma alpha_below_RuneSelf (c : N) :
  in_ranges c class_alpha = true → (c < 0x80)%N.
Proof.
  unfold in_ranges, class_alpha. cbn [existsb fst snd].
  rewrite !orb_true_iff, !between_spec.
  change (rune "a") with 97%N. change (rune "z") with 122%N.
  change (rune "A") with 65%N. change (rune "Z") with 90%N. lia.
Qed.

Lemma high_not_trailing (b : N) :
  (0x80 ≤ b)%N → in_ranges b class_trailing = false.
Proof.
  intros Hb. apply not_true_is_false. unfold in_ranges, class_trailing.
  cbn [existsb fst snd]. rewrite !orb_true_iff, !between_spec.
  change (rune ".") with 46%N. change (rune "_") with 95%N.
  change (rune "-") with 45%N. lia.
Qed.

(** Every accepted name, of plain ASCII or not, has 2 to 255 bytes, begins
    with the byte of a letter and does not end with the byte of a dot, an
    underscore or a hyphen. *)
Theorem accepted_name_bytes name :
  name_accepted name = true →
  (2 ≤ len name ≤ 255)%Z
  ∧ (∃ c rest, bytes name = c :: rest ∧ in_ranges c class_alpha = true)
  ∧ (∃ b, last (bytes name) = Some b ∧ in_ranges b class_trailing = false).
Proof.
  intros (Hlen & c & cs & l & Hrunes & Hc & _ & Hl)%name_accepted_runes.
  split; [done|]. unfold runes in Hrunes. split.
  - destruct (runes_fuel_head _ _ _ _ Hrunes (alpha_below_RuneSelf _ Hc))
      as [rest Hbytes].
    eauto.
  - destruct (runes_fuel_last _ _ (c :: cs) l
                ltac:(by rewrite length_bytes) Hrunes) as (b & Hlast & Hb).
    exists b. split; [done|].
    destruct Hb as [->|Hb]; [done|by apply high_not_trailing].
Qed.

(** ** More runs on the scripted control plane *)

Lemma read_fails_only_with_api_error_witness :
  (GetInstance (failing_get_conn throttled) (get_request test_data) 0).1.2
  = Some throttled
  ∧ rd (mkState 0 test_data []
          [CallGetInstance (mkGetInstanceInput (Some "test1"))])
    = test_data.
Proof.
  apply (read_fails_only_with_api_error
           (test_meta working_wait (failing_get_conn throttled))
           (test_state 0) throttled
           (mkState 0 test_data []
              [CallGetInstance (mkGetInstanceInput (Some "test1"))])).
  reflexivity.
Defined.

Lemma read_reflects_instance_witness :
  ∃ s',
    resourceInstanceRead (test_meta working_wait healthy_conn) (test_state 0)
    = Normal None s'
    ∧ Get (rd s') "name" = VString "test1"
    ∧ Get (rd s') "availability_zone" = VString "us-east-1a".
Proof.
  destruct (read_reflects_instance (test_meta working_wait healthy_conn)
              (test_state 0) (mkGetInstanceOutput (Some test_instance))
              test_instance (mkResourceLocation (Some "us-east-1a"))
              (mkTime 1667908800 0)
              (mkInstanceHardware (Some 1%Z) (Some 0%Z)) 0
              eq_refl eq_refl eq_refl eq_refl eq_refl)
    as (s' & Hread & _ & Hname & Hzone & _).
  exists s'. repeat split; assumption.
Defined.

Lemma read_keeps_stale_ipv6_address_witness :
  ∃ s',
    resourceInstanceRead
      (test_meta working_wait
         (answering_conn
            (Some (mkGetInstanceOutput (Some ipv4_instance)), None)))
      (mkState 0 stale_data [] [])
    = Normal None s'
    ∧ Get (rd s') "ipv6_addresses" = VList []
    ∧ Get (rd s') "ipv6_address" = VString "2001:db8::1".
Proof.
  apply (read_keeps_stale_ipv6_address
           (test_meta working_wait
              (answering_conn
                 (Some (mkGetInstanceOutput (Some ipv4_instance)), None)))
           (mkState 0 stale_data [] [])
           (mkGetInstanceOutput (Some ipv4_instance)) ipv4_instance
           (mkResourceLocation (Some "us-east-1a")) (mkTime 1667908800 0)
           (mkInstanceHardware (Some 1%Z) (Some 0%Z)) 0);
    reflexivity.
Defined.


Lemma read_panics_on_incomplete_response_witness :
  ∃ s',
    resourceInstanceRead
      (test_meta working_wait
         (answering_conn
            (Some (mkGetInstanceOutput (Some bare_instance)), None)))
      (test_state 0)
    = Panic nil_dereference s'.
Proof.
  apply (read_panics_on_incomplete_response
           (test_meta working_wait
              (answering_conn
                 (Some (mkGetInstanceOutput (Some bare_instance)), None)))
           (test_state 0) (mkGetInstanceOutput (Some bare_instance)) 0).
  - reflexivity.
  - right. exists bare_instance. split; [reflexivity|].
    right. right. reflexivity.
Defined.

Lemma mutation_error_is_returned_witness :
  resourceInstanceCreate (test_meta working_wait refusing_conn) (test_state 0)
  = Normal (Some throttled)
      (mkState 0 test_data []
         [CallCreateInstances
            (create_request (test_meta working_wait refusing_conn)
               test_data)])
  ∧ resourceInstanceDelete (test_meta working_wait refusing_conn)
      (test_state 0)
    = Normal (Some throttled)
        (mkState 0 test_data []
           [CallDeleteInstance (mkDeleteInstanceInput (Some "test1"))]).
Proof.
  split.
  - apply (mutation_error_is_returned MutCreate
             (test_meta working_wait refusing_conn) (test_state 0) None
             throttled 0).
    reflexivity.
  - apply (mutation_error_is_returned MutDelete
             (test_meta working_wait refusing_conn) (test_state 0) None
             throttled 0).
    reflexivity.
Defined.

Lemma create_then_not_found_witness :
  ∃ s',
    resourceInstanceCreate (test_meta failing_wait (failing_get_conn not_found))
      (test_state 2)
    = Normal None s'
    ∧ Id (rd s') = ""
    ∧ waited (trace s') = [Some "op-1"].
Proof.
  destruct (create_then_not_found
              (test_meta failing_wait (failing_get_conn not_found))
              (test_state 2) (mkCreateInstancesOutput (operations_of 2)) op1
              (replicate 2 (Some op2)) 0 (Some timed_out) 0 None
              "NotFoundException: The Instance does not exist" 0
              eq_refl eq_refl eq_refl eq_refl)
    as (s' & Hcreate & Hid & _ & Htrace).
  exists s'. split; [exact Hcreate|]. split; [exact Hid|].
  rewrite Htrace. reflexivity.
Defined.

Lemma update_without_change_is_read_witness :
  resourceInstanceUpdate (test_meta working_wait healthy_conn)
    (mkState 0 unchanged_data [] [])
  = resourceInstanceRead (test_meta working_wait healthy_conn)
      (mkState 0 unchanged_data [] []).
Proof.
  apply (update_without_change_is_read (test_meta working_wait healthy_conn)
           (mkState 0 unchanged_data [] []));
    vm_compute; reflexivity.
Defined.

Lemma update_wait_failure_is_returned_witness :
  resourceInstanceUpdate (test_meta failing_wait healthy_conn) (test_state 2)
  = Normal (Some timed_out)
      (mkState 0 test_data []
         [CallSetIpAddressType
            (mkSetIpAddressTypeInput (Some "test1") (Some "Instance")
               (Some "dualstack"));
          CallWaitOperation (Some "op-1")]).
Proof.
  apply (update_wait_failure_is_returned
           (test_meta failing_wait healthy_conn) (test_state 2) op1
           (replicate 2 (Some op2)) 0 timed_out 0);
    reflexivity.
Defined.

Lemma update_tags_failure_witness :
  resourceInstanceUpdate (test_meta failing_tags healthy_conn)
    (mkState 0 retagged_data [] [])
  = Normal
      (Some (ErrorString
               ("error updating Lightsail Instance (test1) tags: "
                +:+ Error throttled)))
      (mkState 0 retagged_data []
         [CallUpdateTags "test1" (VMap ∅) (VMap {[ "Owner" := "ops" ]})]).
Proof.
  apply (update_tags_failure (test_meta failing_tags healthy_conn)
           (mkState 0 retagged_data [] []) throttled 0);
    vm_compute; reflexivity.
Defined.

Lemma update_order_witness :
  resourceInstanceUpdate (test_meta working_wait healthy_conn)
    (mkState 2 changed_data [] [])
  = resourceInstanceRead (test_meta working_wait healthy_conn)
      (mkState 0 changed_data []
         [CallSetIpAddressType
            (mkSetIpAddressTypeInput (Some "test1") (Some "Instance")
               (Some "dualstack"));
          CallWaitOperation (Some "op-1");
          CallUpdateTags "test1" (VMap ∅) (VMap {[ "Owner" := "ops" ]})]).
Proof.
  apply (update_order (test_meta working_wait healthy_conn)
           (mkState 2 changed_data [] []) op1 (replicate 2 (Some op2)) 0 0 0);
    vm_compute; reflexivity.
Defined.

Lemma destroy_check_passes_iff_witness :
  @check_destroyed scripted_checks
    (map_to_list (RootModule_Resources detached_state))
  = Returned None
  ↔ ∀ n rs, RootModule_Resources detached_state !! n = Some rs →
      ResourceState_Type rs = "aws_lightsail_lb_attachment" →
      @is_gone scripted_checks rs.
Proof.
  apply (@destroy_check_passes_iff scripted_checks detached_state
           (map_to_list (RootModule_Resources detached_state))).
  reflexivity.
Defined.

Lemma exists_check_excludes_destroyed_witness :
  @check_destroyed scripted_checks
    (map_to_list (RootModule_Resources attached_state))
  ≠ Returned None.
Proof.
  apply (@exists_check_excludes_destroyed scripted_checks
           "aws_lightsail_lb_attachment.test" None attached_state
           (attachment_resource "lb1,i1")
           (map_to_list (RootModule_Resources attached_state)));
    try reflexivity; vm_compute; reflexivity.
Defined.

Lemma name_accepted_ascii_iff_witness :
  name_accepted "test1" = true
  ↔ (2 ≤ len "test1" ≤ 255)%Z
    ∧ ∃ c cs l, bytes "test1" = c :: cs ++ [l]
        ∧ in_ranges c class_alpha = true
        ∧ Forall (λ c, in_ranges c class_name = true) cs
        ∧ in_ranges l class_trailing = false.
Proof.
  apply (name_accepted_ascii_iff "test1").
  unfold is_ascii. cbn [bytes]. repeat constructor.
Defined.

Lemma accepted_name_bytes_witness :
  (2 ≤ len "test1" ≤ 255)%Z
  ∧ (∃ c rest, bytes "test1" = c :: rest ∧ in_ranges c class_alpha = true)
  ∧ (∃ b, last (bytes "test1") = Some b
          ∧ in_ranges b class_trailing = false).
Proof.
  apply (accepted_name_bytes "test1"). vm_compute. reflexivity.
Defined.
